(** * kaggle_dataset_downloader.py: download, extract, organise

    A shallow embedding of the three functions of the script
    ([download_datasets], [unzip_datasets], [organize_datasets]) and of
    the [__main__] block, together with the properties the specification
    states about them.

    The script is glue around the Python standard library, so the
    development has two layers:
    - a model of the library calls the script makes ([os.path.exists],
      [os.remove], [os.makedirs], [shutil.unpack_archive],
      [subprocess.run]) over a working directory represented as a finite
      map from relative paths to nodes;
    - the script itself, written in a state-and-exception monad over that
      working directory and a log of the library calls made so far. *)

From Stdlib Require Import Ascii String.
From stdpp Require Import gmap strings list.

Local Open Scope string_scope.

(** ** Python strings

    A Python [str] is modelled by a byte string (its UTF-8 encoding).  The
    separator ['/'] is a single byte that occurs in no multi-byte
    sequence, so splitting the encoding is splitting the text. *)

Module PyStr.

(** [s.split(sep)] for a one-character separator: the list of the
    maximal [sep]-free pieces, in order.  The result is never empty;
    [''.split('/')] is [['']]. *)
Fixpoint split (sep : ascii) (s : string) : list string :=
  match s with
  | EmptyString => [EmptyString]
  | String c s' =>
      if Ascii.eqb c sep then EmptyString :: split sep s'
      else match split sep s' with
           | [] => [String c EmptyString]
           | seg :: segs => String c seg :: segs
           end
  end.

(** [s.startswith(p)]. *)
Definition startswith (p s : string) : bool := String.prefix p s.

(** [sub in s]. *)
Fixpoint contains (sub s : string) : bool :=
  String.prefix sub s ||
  match s with
  | EmptyString => false
  | String _ s' => contains sub s'
  end.

(** [s.endswith(suf)]. *)
Fixpoint endswith (suf s : string) : bool :=
  String.eqb suf s ||
  match s with
  | EmptyString => false
  | String _ s' => endswith suf s'
  end.

(** The character [c] does not occur in [s]. *)
Fixpoint free_of (c : ascii) (s : string) : bool :=
  match s with
  | EmptyString => true
  | String a s' => negb (Ascii.eqb a c) && free_of c s'
  end.

End PyStr.

(** ** Exceptions and results *)

Inductive exn : Type :=
| IndexError
| ReadError
| FileExistsError
| FileNotFoundError
| NotADirectoryError
| IsADirectoryError
| KeyError
| EOFError
| BadZipFile
| OtherError (name : string).

Inductive result (A : Type) : Type :=
| Ok (a : A)
| Raise (e : exn).
Arguments Ok {A} a.
Arguments Raise {A} e.

(** [xs[-1]]: the last element, [IndexError] on an empty list. *)
Definition index_last {A : Type} (xs : list A) : result A :=
  match last xs with
  | Some x => Ok x
  | None => Raise IndexError
  end.

(** The slash that separates the owner from the dataset name. *)
Definition slash : ascii := "/"%char.

(** Line 19 of the script:
    [zip_file = f"{dataset.split('/')[-1]}.zip"]. *)
Definition zip_file_name (dataset : string) : result string :=
  match index_last (PyStr.split slash dataset) with
  | Ok seg => Ok (seg ++ ".zip")
  | Raise e => Raise e
  end.

(** ** The working directory

    A path is the list of its components relative to the working
    directory; the working directory itself is the empty list.  A name
    given to a library call is turned into a path by splitting it on
    ['/'] and dropping the components [''] and ['.'], which name no step.
    The script passes no name with a ['..'] component to a call that
    resolves it: [zip_file] ends in [.zip], the category names are fixed,
    and archive members with [..] in their name are skipped before their
    name is resolved.  Symbolic links and permissions are not modelled. *)

Inductive node : Type :=
| File (data : string)
| Dir.

Definition is_step (seg : string) : bool :=
  negb (String.eqb seg EmptyString) && negb (String.eqb seg ".").

Definition norm (segs : list string) : list string :=
  List.filter is_step segs.

Definition to_path (name : string) : list string :=
  norm (PyStr.split slash name).

(** What is at path [p]: the working directory itself always exists and
    is a directory. *)
Definition node_at (fs : gmap (list string) node) (p : list string)
  : option node :=
  match p with
  | [] => Some Dir
  | _ => fs !! p
  end.

Definition is_dir (fs : gmap (list string) node) (p : list string) : bool :=
  match node_at fs p with
  | Some Dir => true
  | _ => false
  end.

(** ** The library calls the script makes, as events *)

Inductive event : Type :=
| EvRun (args : list string)          (* subprocess.run(args) *)
| EvExists (name : string)            (* os.path.exists(name) *)
| EvUnpack (name : string)            (* shutil.unpack_archive(name) *)
| EvRemove (name : string)            (* os.remove(name) *)
| EvMakedirs (name : string).         (* os.makedirs(name, exist_ok=True) *)

Definition is_run (ev : event) : bool :=
  match ev with EvRun _ => true | _ => false end.

Definition is_makedirs (ev : event) : bool :=
  match ev with EvMakedirs _ => true | _ => false end.

(** The state a run threads: the working directory and the calls made so
    far, oldest first. *)
Record world : Type := World {
  files : gmap (list string) node;
  log : list event
}.

(** ** What the script does not contain

    Two things are outside the repository and are taken as parameters:
    the zip reader and the program that [subprocess.run] launches.

    The zip reader says, for the bytes of a file, what [zipfile] makes
    of them: [None] when [zipfile.is_zipfile] answers no; an exception
    when [zipfile.ZipFile] raises on a file that [is_zipfile] accepted;
    otherwise an archive.  An archive is the list of its entries in
    central-directory order, each with its name and with what reading
    the entry gives while the archive file is as it was opened: either
    [zip.open(name)] raises, before the target is opened, or data is
    copied to the target and the copy ends, normally or with an
    exception (a bad checksum, a truncated entry).

    [zipfile] reads the entries from the open archive file as it goes.
    Once a member has been written over the archive file itself, what
    the reads give depends on the new content of the file and on what
    the reader had buffered; the archive says what they give then by a
    second function, of the archive's file name and of the number of
    the entry in the list, about which nothing is assumed.

    For the program that [subprocess.run] launches the parameter gives,
    for an argument vector and a working directory, [None] when the
    program cannot be started, otherwise the working directory it
    leaves behind and its exit status.  A launched program is assumed
    to terminate. *)

Inductive read_outcome : Type :=
| OpenFails (e : exn)
| Copies (data : string) (fault : option exn).

Record zip_archive : Type := {
  entries : list (string * read_outcome);
  disturbed_read : string → nat → read_outcome
}.

Class Platform : Type := {
  zip_open : string → option (result zip_archive);
  run_program :
    list string → gmap (list string) node →
    option (gmap (list string) node * Z)
}.

(** ** The monad of the script: state and exceptions

    A computation takes a world and returns a value or an exception,
    with the world it left behind in both cases: what was done before an
    exception was raised stays done. *)

Definition M (A : Type) : Type := world → result A * world.

Definition ret {A : Type} (a : A) : M A := λ w, (Ok a, w).

Definition raise {A : Type} (e : exn) : M A := λ w, (Raise e, w).

Definition bind {A B : Type} (m : M A) (k : A → M B) : M B :=
  λ w, match m w with
       | (Ok a, w1) => k a w1
       | (Raise e, w1) => (Raise e, w1)
       end.

Declare Scope py_scope.
Delimit Scope py_scope with py.
Notation "x ← m ; k" := (bind m (λ x, k))
  (at level 20, m at level 100, k at level 200, only parsing) : py_scope.
Notation "m ;; k" := (bind m (λ _, k))
  (at level 100, k at level 200, only parsing, right associativity)
  : py_scope.
Local Open Scope py_scope.

Definition emit (ev : event) : M unit :=
  λ w, (Ok tt, {| files := files w; log := log w ++ [ev] |}).

Definition get_files : M (gmap (list string) node) :=
  λ w, (Ok (files w), w).

Definition put_files (fs : gmap (list string) node) : M unit :=
  λ w, (Ok tt, {| files := fs; log := log w |}).

(** [for x in xs: body(x)]. *)
Fixpoint for_each {A : Type} (xs : list A) (body : A → M unit) : M unit :=
  match xs with
  | [] => ret tt
  | x :: xs' => body x ;; for_each xs' body
  end.

(** [enumerate(xs, k)]: the elements with their numbers, from [k]. *)
Fixpoint enumerate_from {A : Type} (k : nat) (xs : list A)
  : list (nat * A) :=
  match xs with
  | [] => []
  | x :: xs' => (k, x) :: enumerate_from (S k) xs'
  end.

(** A pure computation that may raise, run inside [M]. *)
Definition lift {A : Type} (r : result A) : M A :=
  match r with
  | Ok a => ret a
  | Raise e => raise e
  end.

(** ** Model of the [os] module

    The names the script passes to these calls are never empty. *)

Module os.

(** [os.mkdir] along a path: [made] is the part already known to be a
    directory, [rest] the components still to create.  An intermediate
    component that is a regular file gives [NotADirectoryError]; the leaf
    gives [FileExistsError] when it is a regular file, or when it is a
    directory and [exist_ok] is false. *)
Fixpoint mkdir_chain (exist_ok : bool) (made rest : list string)
    (fs : gmap (list string) node)
  : result unit * gmap (list string) node :=
  match rest with
  | [] => (Ok tt, fs)
  | seg :: rest' =>
      let p := (made ++ [seg])%list in
      match fs !! p, rest' with
      | None, _ => mkdir_chain exist_ok p rest' (<[p := Dir]> fs)
      | Some Dir, [] =>
          if exist_ok then (Ok tt, fs) else (Raise FileExistsError, fs)
      | Some Dir, _ :: _ => mkdir_chain exist_ok p rest' fs
      | Some (File _), [] => (Raise FileExistsError, fs)
      | Some (File _), _ :: _ => (Raise NotADirectoryError, fs)
      end
  end.

(** [os.makedirs(name, exist_ok)] on a path, without the log entry: the
    working directory itself exists already. *)
Definition makedirs_path (p : list string) (exist_ok : bool) : M unit :=
  λ w,
    match p with
    | [] => if exist_ok then (Ok tt, w) else (Raise FileExistsError, w)
    | _ =>
        let '(r, fs) := mkdir_chain exist_ok [] p (files w) in
        (r, {| files := fs; log := log w |})
    end.

(** [os.path.exists(name)]. *)
Definition path_exists (name : string) : M bool :=
  emit (EvExists name) ;;
  fs ← get_files ;
  ret (match node_at fs (to_path name) with Some _ => true | None => false end).

(** [os.remove(name)]: removes a regular file. *)
Definition remove (name : string) : M unit :=
  emit (EvRemove name) ;;
  fs ← get_files ;
  match node_at fs (to_path name) with
  | Some (File _) => put_files (delete (to_path name) fs)
  | Some Dir => raise IsADirectoryError
  | None => raise FileNotFoundError
  end.

(** [os.makedirs(name, exist_ok=exist_ok)]. *)
Definition makedirs (name : string) (exist_ok : bool) : M unit :=
  emit (EvMakedirs name) ;; makedirs_path (to_path name) exist_ok.

End os.

(** ** Model of [shutil.unpack_archive] for zip archives

    After [shutil._unpack_zipfile]: the members are taken in the
    archive's order; a member whose name starts with ['/'] or contains
    ['..'] is skipped; for the others the parent directory of the target
    is created when it is not a directory yet, and a member whose name
    does not end in ['/'] is opened by its name, which gives the last
    entry of that name, and copied to the target as a regular file,
    replacing a file already there.  The target is the member's name
    resolved against the working directory, so no folder per archive is
    made.

    The number a member carries in the loop stands for its place in
    [zip.infolist()]; the code has no such number.  Archive formats
    other than zip are not modelled: a name that does not end in [.zip]
    gives [ReadError], as a name with an unregistered extension does. *)

Module shutil.

Definition skipped (name : string) : bool :=
  PyStr.startswith "/" name || PyStr.contains ".." name.

(** The path a member of this name is written to as a regular file:
    none when the member is skipped or is a directory entry. *)
Definition file_target (name : string) : option (list string) :=
  if skipped name || PyStr.endswith "/" name then None
  else Some (to_path name).

(** [_ensure_directory(targetpath)], given the parent of the target. *)
Definition ensure_directory (dirname : list string) : M unit :=
  fs ← get_files ;
  if is_dir fs dirname then ret tt else os.makedirs_path dirname false.

(** [zip.getinfo(name)]: the last entry of that name. *)
Definition entry_by_name (es : list (string * read_outcome)) (name : string)
  : read_outcome :=
  match last (List.filter (λ e, String.eqb e.1 name) es) with
  | Some e => e.2
  | None => OpenFails KeyError
  end.

(** A member before the [i]-th has been written over the archive file. *)
Definition disturbed_before (zip_path : list string)
    (es : list (string * read_outcome)) (i : nat) : bool :=
  existsb (λ e, bool_decide (file_target e.1 = Some zip_path)) (take i es).

(** What [zip.open(name)] and the copy give for the [i]-th member. *)
Definition read_member (zip_file : string) (a : zip_archive) (i : nat)
    (name : string) : read_outcome :=
  if disturbed_before (to_path zip_file) (entries a) i
  then disturbed_read a zip_file i
  else entry_by_name (entries a) name.

(** What reaches the target, and the exception the copy ends with. *)
Definition copy_of (o : read_outcome) : string * option exn :=
  match o with
  | Copies data fault => (data, fault)
  | OpenFails e => (EmptyString, Some e)
  end.

(** What the copy to [target] delivers, given what an undisturbed read
    of the entry gives.  Opening the target truncates it: when the
    target is the archive file, so far as it was opened, the copy is a
    disturbed read. *)
Definition copy_for (zip_file : string) (a : zip_archive) (i : nat)
    (target : list string) (data : string) (fault : option exn)
  : string * option exn :=
  if negb (disturbed_before (to_path zip_file) (entries a) i)
     && bool_decide (target = to_path zip_file)
  then copy_of (disturbed_read a zip_file i)
  else (data, fault).

(** [with zip.open(name, 'r') as source, open(targetpath, 'wb') as
    target: copyfileobj(source, target)].  The member is opened first,
    then the target; what has been copied when the copy ends with an
    exception stays in the target. *)
Definition copy_member (zip_file : string) (a : zip_archive) (i : nat)
    (name : string) (target : list string) : M unit :=
  match read_member zip_file a i name with
  | OpenFails e => raise e
  | Copies data fault =>
      fs ← get_files ;
      match node_at fs target with
      | Some Dir => raise IsADirectoryError
      | _ =>
          let copy := copy_for zip_file a i target data fault in
          put_files (<[target := File copy.1]> fs) ;;
          match copy.2 with
          | Some e => raise e
          | None => ret tt
          end
      end
  end.

(** The body of the loop over [zip.infolist()]. *)
Definition extract_member (zip_file : string) (a : zip_archive)
    (im : nat * (string * read_outcome)) : M unit :=
  if skipped im.2.1 then ret tt
  else
    let segs := PyStr.split slash im.2.1 in
    ensure_directory (norm (removelast segs)) ;;
    if PyStr.endswith "/" im.2.1 then ret tt
    else copy_member zip_file a im.1 im.2.1 (norm segs).

Section with_platform.
Context `{Platform}.

Definition unpack_zipfile (filename : string) : M unit :=
  fs ← get_files ;
  match node_at fs (to_path filename) with
  | Some (File bytes) =>
      match zip_open bytes with
      | Some (Ok a) =>
          for_each (enumerate_from 0 (entries a)) (extract_member filename a)
      | Some (Raise e) => raise e
      | None => raise ReadError
      end
  | _ => raise ReadError
  end.

(** [shutil.unpack_archive(filename)]: the format comes from the
    extension, the target directory is the working directory. *)
Definition unpack_archive (filename : string) : M unit :=
  emit (EvUnpack filename) ;;
  if PyStr.endswith ".zip" filename then unpack_zipfile filename
  else raise ReadError.

End with_platform.
End shutil.

(** ** Model of [subprocess.run]

    [subprocess.run(args)] without [check=True] returns a
    [CompletedProcess] whatever the exit status is; it raises
    [FileNotFoundError] when the program cannot be started. *)

Module subprocess.
Section with_platform.
Context `{Platform}.

Record CompletedProcess : Type := { returncode : Z }.

Definition run (args : list string) : M CompletedProcess :=
  emit (EvRun args) ;;
  fs ← get_files ;
  match run_program args fs with
  | Some (fs', rc) => put_files fs' ;; ret {| returncode := rc |}
  | None => raise FileNotFoundError
  end.

End with_platform.
End subprocess.

(** ** The script *)

Section script.
Context `{Platform}.

(** [unzip_datasets(dataset)], lines 18 to 22. *)
Definition unzip_datasets (dataset : string) : M unit :=
  zip_file ← lift (zip_file_name dataset) ;
  found ← os.path_exists zip_file ;
  if found then
    shutil.unpack_archive zip_file ;;
    os.remove zip_file
  else ret tt.

(** The list literal of [download_datasets], lines 7 to 11. *)
Definition datasets : list string :=
  ["username/dataset1"; "username/dataset2"; "username/dataset3"].

(** The command line of the download, line 14. *)
Definition download_command (dataset : string) : list string :=
  ["kaggle"; "datasets"; "download"; dataset].

(** The loop of [download_datasets], lines 13 to 15, over a given list:
    the value [subprocess.run] returns is dropped. *)
Definition download_datasets_on (datasets : list string) : M unit :=
  for_each datasets (λ dataset,
    _ ← subprocess.run (download_command dataset) ;
    unzip_datasets dataset).

(** [download_datasets()], lines 6 to 15. *)
Definition download_datasets : M unit := download_datasets_on datasets.

(** The list literal of [organize_datasets], line 26. *)
Definition categories : list string :=
  ["fresh"; "light_damage"; "moderate_damage"; "severe_damage"].

(** [organize_datasets()], lines 25 to 28: the loop body is the
    [os.makedirs] call only, what follows it in the source is comment. *)
Definition organize_datasets : M unit :=
  for_each categories (λ category, os.makedirs category true).

(** The [__main__] block over a given dataset list, and as written. *)
Definition main_on (datasets : list string) : M unit :=
  download_datasets_on datasets ;; organize_datasets.

Definition main : M unit := download_datasets ;; organize_datasets.

End script.

(** ** A small platform to run the script on

    The zip reader knows a few byte strings; the download tool puts the
    first of them under [<name>.zip] for a dataset called [ds1] and
    fails with status 1 for every other dataset. *)

(** An entry that reads without a fault. *)
Definition stored (data : string) : read_outcome := Copies data None.

Definition one_members : list (string * read_outcome) :=
  [("data.csv", stored "a,b")].

Definition self_members : list (string * read_outcome) :=
  [("data.csv", stored "a,b"); ("ds1.zip", stored EmptyString)].

Definition tree_members : list (string * read_outcome) :=
  [("sub/", stored EmptyString); ("sub/x.txt", stored "x");
   ("../up.txt", stored "u"); ("sub/x.txt", stored "y");
   ("notes..txt", stored "n")].

(** Reads from an archive file that a member has replaced: the copy of
    the entry numbered 1 comes out empty, and no entry is found after
    it. *)
Definition demo_disturbed (zip_file : string) (i : nat) : read_outcome :=
  match i with
  | 1 => Copies EmptyString None
  | _ => OpenFails BadZipFile
  end.

Definition demo_archive (es : list (string * read_outcome)) : zip_archive :=
  {| entries := es; disturbed_read := demo_disturbed |}.

Definition demo_zip_open (bytes : string) : option (result zip_archive) :=
  if String.eqb bytes "PK-one" then Some (Ok (demo_archive one_members))
  else if String.eqb bytes "PK-self" then Some (Ok (demo_archive self_members))
  else if String.eqb bytes "PK-tree" then Some (Ok (demo_archive tree_members))
  else if String.eqb bytes "PK-baddir" then Some (Raise BadZipFile)
  else None.

Definition demo_run_program (args : list string)
    (fs : gmap (list string) node)
  : option (gmap (list string) node * Z) :=
  match args with
  | [prog; _; _; dataset] =>
      if String.eqb prog "kaggle" then
        if String.eqb dataset "a/ds1"
        then Some (<[ ["ds1.zip"] := File "PK-one" ]> fs, 0%Z)
        else Some (fs, 1%Z)
      else None
  | _ => None
  end.

Definition demo : Platform :=
  {| zip_open := demo_zip_open; run_program := demo_run_program |}.

(** The same tool reporting the opposite exit statuses. *)
Definition demo_flipped : Platform :=
  {| zip_open := demo_zip_open;
     run_program := λ args fs,
       match demo_run_program args fs with
       | Some (fs', rc) => Some (fs', (1 - rc)%Z)
       | None => None
       end |}.

Definition empty_world : world := {| files := ∅; log := [] |}.

Definition world_of (fs : gmap (list string) node) : world :=
  {| files := fs; log := [] |}.

(** A working directory that holds [ds1.zip] with the given bytes, and
    one where a regular file sits at the name of the first category. *)
Definition archive_world (bytes : string) : world :=
  world_of (<[ ["ds1.zip"] := File bytes ]> ∅).

Definition blocked_world : world :=
  world_of (<[ ["fresh"] := File "x" ]> ∅).

(** A platform on which the download tool cannot be started, and a
    working directory where the third category name is taken by a
    regular file, beside a file of the user's. *)
Definition no_tool : Platform :=
  {| zip_open := demo_zip_open; run_program := λ _ _, None |}.

Definition half_blocked_world : world :=
  world_of (<[ ["moderate_damage"] := File "x" ]>
              (<[ ["keep.txt"] := File "k" ]> ∅)).

(** A working directory that holds, beside the archive [PK-tree], a
    directory and a file of the user's. *)
Definition busy_world : world :=
  world_of (<[ ["ds1.zip"] := File "PK-tree" ]>
              (<[ ["sub"] := Dir ]> (<[ ["keep.txt"] := File "k" ]> ∅))).

(** A platform whose zip reader knows an archive of members that are
    all skipped, and whose download tool does nothing. *)
Definition skip_members : list (string * read_outcome) :=
  [("../up.txt", stored "u"); ("/etc/x", stored "e");
   ("notes..txt", stored "n")].

Definition demo_skip : Platform :=
  {| zip_open := λ bytes,
       if String.eqb bytes "PK-skip"
       then Some (Ok (demo_archive skip_members)) else None;
     run_program := λ _ fs, Some (fs, 0%Z) |}.

(** ** Notions the statements use *)

(** The archive name as a total function: [zip_file_name] never raises
    ([zip_file_name_archive] below). *)
Definition archive_name (dataset : string) : string :=
  match zip_file_name dataset with
  | Ok z => z
  | Raise _ => EmptyString
  end.

(** [fs'] is [fs] with directories added at paths that were free. *)
Definition dirs_added (fs fs' : gmap (list string) node) : Prop :=
  ∀ q, fs' !! q = fs !! q ∨ (fs !! q = None ∧ fs' !! q = Some Dir).

(** Where a member is written as a regular file, if it is written. *)
Definition member_target (m : string * read_outcome)
  : option (list string) :=
  shutil.file_target m.1.

(** The exception [unpack_archive] raises before it extracts anything,
    for what is at the archive name: a directory or a file that
    [is_zipfile] does not accept gives [ReadError], a file on which
    [ZipFile] raises gives that exception. *)
Definition refusal `{Platform} (n : node) : option exn :=
  match n with
  | Dir => Some ReadError
  | File bytes =>
      match zip_open bytes with
      | None => Some ReadError
      | Some (Raise e) => Some e
      | Some (Ok _) => None
      end
  end.

(** No regular file sits at the one-component path [name]. *)
Definition not_file_at (fs : gmap (list string) node) (name : string)
  : Prop :=
  ∀ d, fs !! [name] ≠ Some (File d).

(** A name that is one path component. *)
Definition plain (name : string) : Prop := to_path name = [name].

(** [fs'] is [fs] with directories added at free paths among [keys]. *)
Definition only_added (keys : list (list string))
    (fs fs' : gmap (list string) node) : Prop :=
  ∀ q, fs' !! q = fs !! q ∨
       (q ∈ keys ∧ fs !! q = None ∧ fs' !! q = Some Dir).

(** The loop of [organize_datasets] over a given list of names. *)
Definition make_all (names : list string) : M unit :=
  for_each names (λ name, os.makedirs name true).

(** Running [m] from [w] adds to the log a beginning of [full], and the
    whole of [full] when [m] returns. *)
Definition made_calls {A : Type} (m : M A) (w : world) (full : list event)
  : Prop :=
  ∃ new, log (m w).2 = (log w ++ new)%list ∧
         new `prefix_of` full ∧
         (∀ a, (m w).1 = Ok a → new = full).

(** The calls the extractor makes when it returns: the existence query,
    and, when the archive was found, the unpacking and then the removal. *)
Definition extractor_calls (zip_file : string) (found : bool) : list event :=
  EvExists zip_file ::
  (if found then [EvUnpack zip_file; EvRemove zip_file] else []).

(** The calls of one round of the fetcher's loop: the download, then the
    extractor's calls for the same dataset. *)
Definition download_round (round : string * bool) : list event :=
  EvRun (download_command round.1) ::
  extractor_calls (archive_name round.1) round.2.

(** The calls of a whole run over [datasets], [founds] telling for each
    dataset whether its archive was there after the download. *)
Definition run_calls (datasets : list string) (founds : list bool)
  : list event :=
  (flat_map download_round (zip datasets founds)
   ++ (EvMakedirs <$> categories))%list.

(** ** Facts about [split] *)

Lemma split_nonempty sep s : PyStr.split sep s ≠ [].
Proof.
  destruct s as [|c s]; simpl; [discriminate|].
  destruct (Ascii.eqb c sep); [discriminate|].
  destruct (PyStr.split sep s); discriminate.
Qed.

Lemma split_free sep s :
  PyStr.free_of sep s = true → PyStr.split sep s = [s].
Proof.
  induction s as [|c s IH]; simpl; [done|].
  intros [Hc Hs]%andb_prop.
  destruct (Ascii.eqb c sep); [discriminate|].
  by rewrite (IH Hs).
Qed.

Lemma last_cons_nonempty {A} (x : A) (l : list A) :
  l ≠ [] → last (x :: l) = last l.
Proof. by destruct l. Qed.

(** Prepending text and a separator does not change the last piece. *)
Lemma last_split_app sep p s :
  last (PyStr.split sep (p ++ String sep s)) = last (PyStr.split sep s).
Proof.
  induction p as [|c p IH]; simpl.
  - rewrite Ascii.eqb_refl.
    apply last_cons_nonempty, split_nonempty.
  - destruct (Ascii.eqb c sep).
    + rewrite last_cons_nonempty by apply split_nonempty. exact IH.
    + pose proof (split_nonempty sep (p ++ String sep s)) as Hne.
      destruct (PyStr.split sep (p ++ String sep s)) as [|seg segs] eqn:E;
        [done|].
      destruct segs as [|seg' segs']; [|exact IH].
      (* one piece only: impossible, a separator is in the string *)
      exfalso. clear IH Hne.
      revert seg E. induction p as [|d p IHp]; simpl; intros seg E.
      * rewrite Ascii.eqb_refl in E.
        pose proof (split_nonempty sep s). by destruct (PyStr.split sep s).
      * destruct (Ascii.eqb d sep).
        -- pose proof (split_nonempty sep (p ++ String sep s)).
           by destruct (PyStr.split sep (p ++ String sep s)).
        -- destruct (PyStr.split sep (p ++ String sep s)) as [|t ts] eqn:E';
             [by apply split_nonempty in E'|].
           destruct ts; [|done]. by eapply IHp.
Qed.

(** Every piece of a split is free of the separator. *)
Lemma split_pieces_free sep s :
  Forall (λ seg, PyStr.free_of sep seg = true) (PyStr.split sep s).
Proof.
  induction s as [|c s IH]; simpl.
  - by constructor.
  - destruct (Ascii.eqb c sep) eqn:Ec.
    + by constructor.
    + destruct (PyStr.split sep s) as [|seg segs]; simpl.
      * constructor; [simpl; by rewrite Ec|done].
      * inversion IH; subst. constructor; [|done].
        simpl. rewrite Ec. done.
Qed.

(** ** The archive name *)

Lemma zip_file_name_last dataset :
  ∃ seg, last (PyStr.split slash dataset) = Some seg ∧
         zip_file_name dataset = Ok (seg ++ ".zip").
Proof.
  unfold zip_file_name, index_last.
  destruct (last (PyStr.split slash dataset)) as [seg|] eqn:E; [eauto|].
  apply last_None in E. by apply split_nonempty in E.
Qed.

Lemma zip_file_name_archive dataset :
  zip_file_name dataset = Ok (archive_name dataset).
Proof.
  unfold archive_name.
  destruct (zip_file_name_last dataset) as (seg & _ & ->). done.
Qed.

Lemma free_of_app c s t :
  PyStr.free_of c s = true → PyStr.free_of c t = true →
  PyStr.free_of c (s ++ t) = true.
Proof.
  induction s as [|a s IH]; simpl; [done|].
  intros [Ha Hs]%andb_prop Ht. rewrite Ha. simpl. by apply IH.
Qed.

Lemma string_length_app (s t : string) :
  String.length (s ++ t) = String.length s + String.length t.
Proof. induction s as [|a s IH]; simpl; [done|]. by rewrite IH. Qed.

Lemma endswith_app suf s : PyStr.endswith suf (s ++ suf) = true.
Proof.
  induction s as [|a s IH]; simpl.
  - change (EmptyString ++ suf) with suf.
    destruct suf; cbn -[String.eqb]; by rewrite String.eqb_refl.
  - rewrite IH. apply orb_true_r.
Qed.

Lemma last_Forall {A} (P : A → Prop) (l : list A) x :
  Forall P l → last l = Some x → P x.
Proof.
  intros Hall Hlast. rewrite Forall_forall in Hall. apply Hall.
  apply last_Some in Hlast as [l' ->]. set_solver.
Qed.

(** The archive name is one path component: it has no separator, and it
    is neither empty nor a dot. *)
Lemma archive_name_free dataset :
  PyStr.free_of slash (archive_name dataset) = true.
Proof.
  unfold archive_name.
  destruct (zip_file_name_last dataset) as (seg & Hlast & ->).
  apply free_of_app; [|done].
  by apply (last_Forall _ _ _ (split_pieces_free slash dataset)).
Qed.

Lemma archive_name_is_step dataset : is_step (archive_name dataset) = true.
Proof.
  unfold archive_name.
  destruct (zip_file_name_last dataset) as (seg & _ & ->).
  unfold is_step. apply andb_true_intro. split; apply negb_true_iff;
    apply String.eqb_neq; intros E; apply (f_equal String.length) in E;
    rewrite string_length_app in E; simpl in E; lia.
Qed.

Lemma to_path_archive_name dataset :
  to_path (archive_name dataset) = [archive_name dataset].
Proof.
  unfold to_path. rewrite split_free by apply archive_name_free.
  unfold norm. simpl. by rewrite archive_name_is_step.
Qed.

Lemma archive_name_endswith dataset :
  PyStr.endswith ".zip" (archive_name dataset) = true.
Proof.
  unfold archive_name.
  destruct (zip_file_name_last dataset) as (seg & _ & ->).
  apply endswith_app.
Qed.

(** ** Running the monad *)

Lemma bind_ok {A B} (m : M A) (k : A → M B) w a w1 :
  m w = (Ok a, w1) → bind m k w = k a w1.
Proof. unfold bind. by intros ->. Qed.

Lemma bind_inv_ok {A B} (m : M A) (k : A → M B) w b w' :
  bind m k w = (Ok b, w') →
  ∃ a w1, m w = (Ok a, w1) ∧ k a w1 = (Ok b, w').
Proof.
  unfold bind. destruct (m w) as [[a|e] w1]; [eauto|discriminate].
Qed.


(** A property of the world that every step of a loop keeps, whatever
    the step returns, is kept by the loop. *)
Lemma for_each_invariant {A} (I : world → Prop) (body : A → M unit) xs :
  (∀ x w, I w → I (body x w).2) →
  ∀ w, I w → I (for_each xs body w).2.
Proof.
  intros Hbody. induction xs as [|x xs IH]; simpl; intros w Hw; [done|].
  unfold bind. specialize (Hbody x w Hw).
  destruct (body x w) as [[[]|e] w1]; simpl in *; [by apply IH|done].
Qed.

(** A computation whose log entries are known in all cases. *)
Lemma made_calls_exact {A} (m : M A) w full :
  log (m w).2 = (log w ++ full)%list → made_calls m w full.
Proof. intros Hlog. by exists full. Qed.

(** Calls of a sequence: those of the first part, then, when it returns,
    those of the second. *)
Lemma made_calls_bind {A B} (m : M A) (k : A → M B) w full1 full2 :
  made_calls m w full1 →
  match m w with
  | (Ok a, w1) => made_calls (k a) w1 full2
  | (Raise _, _) => True
  end →
  made_calls (bind m k) w (full1 ++ full2).
Proof.
  intros (new1 & Hlog1 & Hpre1 & Hfull1) Hk. unfold made_calls, bind.
  destruct (m w) as [[a|e] w1]; simpl in *.
  - destruct Hk as (new2 & Hlog2 & Hpre2 & Hfull2).
    rewrite (Hfull1 a eq_refl) in Hlog1.
    exists (full1 ++ new2)%list.
    split; [by rewrite Hlog2, Hlog1, app_assoc|].
    split; [by apply prefix_app|].
    intros b Hb. by rewrite (Hfull2 b Hb).
  - exists new1. split; [done|]. split; [by apply prefix_app_r|done].
Qed.

(** ** What the library calls keep *)

Lemma dirs_added_refl fs : dirs_added fs fs.
Proof. intros q. by left. Qed.

Lemma dirs_added_trans fs1 fs2 fs3 :
  dirs_added fs1 fs2 → dirs_added fs2 fs3 → dirs_added fs1 fs3.
Proof.
  intros H12 H23 q.
  destruct (H12 q) as [E12|[N1 D2]], (H23 q) as [E23|[N2 D3]].
  - left. congruence.
  - right. split; congruence.
  - right. split; congruence.
  - congruence.
Qed.

Lemma dirs_added_insert fs p :
  fs !! p = None → dirs_added fs (<[p := Dir]> fs).
Proof.
  intros Hp q. destruct (decide (p = q)) as [<-|Hne].
  - right. by rewrite lookup_insert_eq.
  - left. by rewrite lookup_insert_ne.
Qed.

Lemma dirs_added_lookup fs fs' q n :
  dirs_added fs fs' → fs !! q = Some n → fs' !! q = Some n.
Proof. intros Hadd Hq. destruct (Hadd q) as [->|[? _]]; congruence. Qed.

Lemma mkdir_chain_dirs_added exist_ok made rest fs :
  dirs_added fs (os.mkdir_chain exist_ok made rest fs).2.
Proof.
  revert made fs. induction rest as [|seg rest IH]; simpl; intros made fs.
  - apply dirs_added_refl.
  - destruct (fs !! (made ++ [seg])%list) as [[d|]|] eqn:E.
    + destruct rest; apply dirs_added_refl.
    + destruct rest; [destruct exist_ok; apply dirs_added_refl|apply IH].
    + eapply dirs_added_trans; [by apply dirs_added_insert|apply IH].
Qed.

Lemma makedirs_path_spec p exist_ok w :
  dirs_added (files w) (files (os.makedirs_path p exist_ok w).2) ∧
  log (os.makedirs_path p exist_ok w).2 = log w.
Proof.
  unfold os.makedirs_path. destruct p as [|seg p].
  - destruct exist_ok; simpl; split; auto using dirs_added_refl.
  - pose proof (mkdir_chain_dirs_added exist_ok [] (seg :: p) (files w)).
    destruct (os.mkdir_chain exist_ok [] (seg :: p) (files w)) as [r fs].
    simpl in *. done.
Qed.

Module shutil_facts.

Lemma ensure_directory_spec d w :
  dirs_added (files w) (files (shutil.ensure_directory d w).2) ∧
  log (shutil.ensure_directory d w).2 = log w.
Proof.
  unfold shutil.ensure_directory, bind, get_files, ret.
  destruct (is_dir (files w) d); simpl.
  - auto using dirs_added_refl.
  - apply makedirs_path_spec.
Qed.





(** The copy of a member changes the target only, to a regular file. *)
Lemma copy_member_spec z a i name t w :
  log (shutil.copy_member z a i name t w).2 = log w ∧
  (files (shutil.copy_member z a i name t w).2 = files w ∨
   (t ≠ [] ∧ files w !! t ≠ Some Dir ∧
    ∃ d, files (shutil.copy_member z a i name t w).2
         = <[t := File d]> (files w))).
Proof.
  unfold shutil.copy_member, bind, get_files, put_files, raise, ret, node_at.
  destruct (shutil.read_member z a i name) as [e|data fault]; [by auto|].
  destruct t as [|seg t]; [by auto|]. cbv zeta.
  destruct (shutil.copy_for z a i (seg :: t) data fault) as [d' fault'].
  destruct (files w !! (seg :: t)) as [[d|]|] eqn:E; [|by auto|];
    (split; [by destruct fault'|]); right;
    (split; [done|]); (split; [congruence|]);
    exists d'; by destruct fault'.
Qed.


(** Extraction of one member: what it may change. *)
Lemma extract_member_log z a im w :
  log (shutil.extract_member z a im w).2 = log w.
Proof.
  unfold shutil.extract_member.
  destruct (shutil.skipped im.2.1); [done|].
  unfold bind.
  destruct (ensure_directory_spec
              (norm (removelast (PyStr.split slash im.2.1))) w) as [_ Hlog].
  destruct (shutil.ensure_directory _ w) as [[[]|e] w1]; simpl in *; [|done].
  destruct (PyStr.endswith "/" im.2.1); [done|].
  destruct (copy_member_spec z a im.1 im.2.1
              (norm (PyStr.split slash im.2.1)) w1) as [-> _]. done.
Qed.

Lemma extract_member_other z a im w q n :
  files w !! q = Some n →
  member_target im.2 ≠ Some q →
  files (shutil.extract_member z a im w).2 !! q = Some n.
Proof.
  intros Hq Hne. unfold member_target, shutil.file_target in Hne.
  unfold shutil.extract_member.
  destruct (shutil.skipped im.2.1); [done|]. simpl in Hne.
  unfold bind.
  destruct (ensure_directory_spec
              (norm (removelast (PyStr.split slash im.2.1))) w) as [Hadd _].
  destruct (shutil.ensure_directory _ w) as [[[]|e] w1]; simpl in *;
    [|by eapply dirs_added_lookup].
  destruct (PyStr.endswith "/" im.2.1); [by eapply dirs_added_lookup|].
  destruct (copy_member_spec z a im.1 im.2.1
              (norm (PyStr.split slash im.2.1)) w1)
    as [_ [->|(_ & _ & d & ->)]].
  - by eapply dirs_added_lookup.
  - rewrite lookup_insert_ne; [by eapply dirs_added_lookup|].
    intros E. apply Hne. by subst q.
Qed.

Lemma extract_member_file z a im w q d :
  files w !! q = Some (File d) →
  ∃ d', files (shutil.extract_member z a im w).2 !! q = Some (File d').
Proof.
  intros Hq. unfold shutil.extract_member.
  destruct (shutil.skipped im.2.1); [eauto|].
  unfold bind.
  destruct (ensure_directory_spec
              (norm (removelast (PyStr.split slash im.2.1))) w) as [Hadd _].
  destruct (shutil.ensure_directory _ w) as [[[]|e] w1]; simpl in *;
    [|eauto using dirs_added_lookup].
  destruct (PyStr.endswith "/" im.2.1); [eauto using dirs_added_lookup|].
  destruct (copy_member_spec z a im.1 im.2.1
              (norm (PyStr.split slash im.2.1)) w1)
    as [_ [->|(_ & _ & d1 & ->)]].
  - eauto using dirs_added_lookup.
  - destruct (decide (norm (PyStr.split slash im.2.1) = q)) as [->|Hne].
    + rewrite lookup_insert_eq. eauto.
    + rewrite lookup_insert_ne by done. eauto using dirs_added_lookup.
Qed.

Lemma extract_member_dir z a im w q :
  files w !! q = Some Dir →
  files (shutil.extract_member z a im w).2 !! q = Some Dir.
Proof.
  intros Hq. unfold shutil.extract_member.
  destruct (shutil.skipped im.2.1); [eauto|].
  unfold bind.
  destruct (ensure_directory_spec
              (norm (removelast (PyStr.split slash im.2.1))) w) as [Hadd _].
  destruct (shutil.ensure_directory _ w) as [[[]|e] w1]; simpl in *;
    [|eauto using dirs_added_lookup].
  destruct (PyStr.endswith "/" im.2.1); [eauto using dirs_added_lookup|].
  destruct (copy_member_spec z a im.1 im.2.1
              (norm (PyStr.split slash im.2.1)) w1)
    as [_ [->|(_ & Hnd & d1 & ->)]].
  - eauto using dirs_added_lookup.
  - rewrite lookup_insert_ne; [eauto using dirs_added_lookup|].
    intros E. subst q. apply Hnd. eauto using dirs_added_lookup.
Qed.



End shutil_facts.

(** ** Extraction of a whole archive *)

Module unpack_facts.
Import shutil_facts.




Lemma extract_all_log z a ims w :
  log (for_each ims (shutil.extract_member z a) w).2 = log w.
Proof.
  apply (for_each_invariant (λ w', log w' = log w)); [|done].
  intros m w1 <-. apply extract_member_log.
Qed.

Lemma extract_all_file z a ims w q d :
  files w !! q = Some (File d) →
  ∃ d', files (for_each ims (shutil.extract_member z a) w).2 !! q
        = Some (File d').
Proof.
  intros Hq.
  apply (for_each_invariant (λ w', ∃ d', files w' !! q = Some (File d')));
    [|eauto].
  intros m w1 [d1 H1]. by eapply extract_member_file.
Qed.

Lemma extract_all_dir z a ims w q :
  files w !! q = Some Dir →
  files (for_each ims (shutil.extract_member z a) w).2 !! q = Some Dir.
Proof.
  intros Hq.
  apply (for_each_invariant (λ w', files w' !! q = Some Dir)); [|done].
  intros m w1 H1. by apply extract_member_dir.
Qed.


Lemma extract_all_other z a ms k w q n :
  Forall (λ m, member_target m ≠ Some q) ms →
  files w !! q = Some n →
  files (for_each (enumerate_from k ms) (shutil.extract_member z a) w).2 !! q
  = Some n.
Proof.
  intros Hall. revert k w.
  induction Hall as [|m ms Hm _ IH]; simpl; intros k w Hq; [done|].
  unfold bind.
  pose proof (extract_member_other z a (k, m) w q n Hq Hm) as Hq1.
  destruct (shutil.extract_member z a (k, m) w) as [[[]|e] w1]; simpl in *;
    [by apply IH|done].
Qed.



Section with_platform.
Context `{Platform}.

(** The archive to unpack is a regular file that the zip reader opens:
    unpacking is the loop over its members. *)
Lemma unpack_archive_members dataset bytes a w :
  files w !! [archive_name dataset] = Some (File bytes) →
  zip_open bytes = Some (Ok a) →
  shutil.unpack_archive (archive_name dataset) w =
  for_each (enumerate_from 0 (entries a))
    (shutil.extract_member (archive_name dataset) a)
    {| files := files w; log := log w ++ [EvUnpack (archive_name dataset)] |}.
Proof.
  intros Hfile Hzip.
  unfold shutil.unpack_archive, shutil.unpack_zipfile, bind, emit, get_files.
  rewrite archive_name_endswith, to_path_archive_name. simpl.
  by rewrite Hfile, Hzip.
Qed.

(** Whatever unpacking returns, it logs its own call only, and what was
    a regular file or a directory before is one after. *)
Lemma unpack_archive_log z w :
  log (shutil.unpack_archive z w).2 = (log w ++ [EvUnpack z])%list.
Proof.
  unfold shutil.unpack_archive, shutil.unpack_zipfile, bind, emit, get_files,
    raise.
  simpl. destruct (PyStr.endswith ".zip" z); simpl; [|done].
  destruct (node_at (files w) (to_path z)) as [[bytes|]|]; simpl; [|done..].
  destruct (zip_open bytes) as [[a|e]|]; simpl; [|done..].
  by rewrite extract_all_log.
Qed.

Lemma unpack_archive_file z w q d :
  files w !! q = Some (File d) →
  ∃ d', files (shutil.unpack_archive z w).2 !! q = Some (File d').
Proof.
  intros Hq.
  unfold shutil.unpack_archive, shutil.unpack_zipfile, bind, emit, get_files,
    raise.
  simpl. destruct (PyStr.endswith ".zip" z); simpl; [|eauto].
  destruct (node_at (files w) (to_path z)) as [[bytes|]|]; simpl; [|eauto..].
  destruct (zip_open bytes) as [[a|e]|]; simpl; [|eauto..].
  by eapply extract_all_file.
Qed.

Lemma unpack_archive_dir z w q :
  files w !! q = Some Dir →
  files (shutil.unpack_archive z w).2 !! q = Some Dir.
Proof.
  intros Hq.
  unfold shutil.unpack_archive, shutil.unpack_zipfile, bind, emit, get_files,
    raise.
  simpl. destruct (PyStr.endswith ".zip" z); simpl; [|eauto].
  destruct (node_at (files w) (to_path z)) as [[bytes|]|]; simpl; [|eauto..].
  destruct (zip_open bytes) as [[a|e]|]; simpl; [|eauto..].
  by eapply extract_all_dir.
Qed.

(** [unzip_datasets] step by step. *)
Lemma unzip_datasets_unfold dataset w :
  unzip_datasets dataset w =
  let z := archive_name dataset in
  let w1 := {| files := files w; log := log w ++ [EvExists z] |} in
  match files w !! [z] with
  | None => (Ok tt, w1)
  | Some _ =>
      match shutil.unpack_archive z w1 with
      | (Ok _, w2) => os.remove z w2
      | (Raise e, w2) => (Raise e, w2)
      end
  end.
Proof.
  unfold unzip_datasets. rewrite zip_file_name_archive.
  unfold bind at 1. simpl.
  unfold bind at 1. unfold os.path_exists, bind, emit, get_files, ret.
  rewrite to_path_archive_name. simpl.
  destruct (files w !! [archive_name dataset]); done.
Qed.

Lemma remove_file dataset w bytes :
  files w !! [archive_name dataset] = Some (File bytes) →
  os.remove (archive_name dataset) w =
  (Ok tt, {| files := delete [archive_name dataset] (files w);
             log := log w ++ [EvRemove (archive_name dataset)] |}).
Proof.
  intros Hfile. unfold os.remove, bind, emit, get_files, put_files.
  rewrite to_path_archive_name. simpl. by rewrite Hfile.
Qed.

End with_platform.
End unpack_facts.

(** ** Creating a list of directories *)

Module makedirs_facts.

Lemma only_added_refl keys fs : only_added keys fs fs.
Proof. intros q. by left. Qed.

Lemma only_added_cons k keys fs fs' :
  only_added keys fs fs' → only_added (k :: keys) fs fs'.
Proof. intros Hadd q. destruct (Hadd q) as [?|(? & ? & ?)]; set_solver. Qed.

Lemma only_added_step k keys fs fs' :
  fs !! k = None →
  only_added keys (<[k := Dir]> fs) fs' →
  only_added (k :: keys) fs fs'.
Proof.
  intros Hk Hadd q. destruct (decide (k = q)) as [<-|Hne].
  - right. split; [set_solver|]. split; [done|].
    destruct (Hadd k) as [->|(_ & E & _)].
    + apply lookup_insert_eq.
    + by rewrite lookup_insert_eq in E.
  - destruct (Hadd q) as [E|(Hin & E & HD)];
      rewrite lookup_insert_ne in E by done; set_solver.
Qed.

(** [os.makedirs(name, exist_ok=True)] for a one-component name. *)
Lemma makedirs_plain name w :
  plain name →
  os.makedirs name true w =
  match files w !! [name] with
  | None => (Ok tt, {| files := <[ [name] := Dir ]> (files w);
                       log := log w ++ [EvMakedirs name] |})
  | Some Dir => (Ok tt, {| files := files w;
                           log := log w ++ [EvMakedirs name] |})
  | Some (File _) => (Raise FileExistsError,
                      {| files := files w;
                         log := log w ++ [EvMakedirs name] |})
  end.
Proof.
  intros Hplain. unfold os.makedirs, bind, emit, os.makedirs_path.
  rewrite Hplain. simpl.
  destruct (files w !! [name]) as [[d|]|]; done.
Qed.

Lemma make_all_dirs_added names w :
  dirs_added (files w) (files (make_all names w).2).
Proof.
  apply (for_each_invariant (λ w', dirs_added (files w) (files w')));
    [|apply dirs_added_refl].
  intros name w1 Hw1. eapply dirs_added_trans; [exact Hw1|].
  unfold os.makedirs, bind, emit. simpl.
  apply (makedirs_path_spec (to_path name) true
           {| files := files w1; log := log w1 ++ [EvMakedirs name] |}).
Qed.

(** One step of a pass over one-component names. *)
Lemma make_all_cons name names w :
  plain name →
  make_all (name :: names) w =
  match files w !! [name] with
  | None => make_all names {| files := <[ [name] := Dir ]> (files w);
                              log := log w ++ [EvMakedirs name] |}
  | Some Dir => make_all names {| files := files w;
                                  log := log w ++ [EvMakedirs name] |}
  | Some (File _) => (Raise FileExistsError,
                      {| files := files w;
                         log := log w ++ [EvMakedirs name] |})
  end.
Proof.
  intros Hplain. unfold make_all. simpl for_each. unfold bind.
  rewrite (makedirs_plain name w Hplain).
  destruct (files w !! [name]) as [[d|]|]; done.
Qed.

(** A second pass over the same names, whatever has been logged in
    between, returns what the first pass returned and changes nothing. *)
Lemma make_all_twice names :
  Forall plain names →
  ∀ fs l1 l2 r w1,
    make_all names {| files := fs; log := l1 |} = (r, w1) →
    ∃ l2', make_all names {| files := files w1; log := l2 |}
           = (r, {| files := files w1; log := l2' |}).
Proof.
  induction 1 as [|name names Hplain _ IH]; intros fs l1 l2 r w1 Hrun.
  - injection Hrun as <- <-. by exists l2.
  - rewrite (make_all_cons _ _ _ Hplain) in Hrun. cbn [files log] in Hrun.
    rewrite (make_all_cons _ _ _ Hplain). cbn [files log].
    destruct (fs !! [name]) as [[d|]|] eqn:E.
    + injection Hrun as <- <-. cbn [files]. rewrite E. eauto.
    + pose proof (make_all_dirs_added names
        {| files := fs; log := l1 ++ [EvMakedirs name] |}) as Hadd.
      rewrite Hrun in Hadd. cbn [snd files] in Hadd.
      rewrite (dirs_added_lookup _ _ _ _ Hadd E). by eapply IH.
    + pose proof (make_all_dirs_added names
        {| files := <[ [name] := Dir ]> fs;
           log := l1 ++ [EvMakedirs name] |}) as Hadd.
      rewrite Hrun in Hadd. cbn [snd files] in Hadd.
      rewrite (dirs_added_lookup _ _ [name] Dir Hadd
                 (lookup_insert_eq _ _ _)).
      by eapply IH.
Qed.

(** A pass changes nothing but the names it is given, and those only
    from free to directory. *)
Lemma make_all_frame names :
  Forall plain names →
  ∀ w, only_added ((λ name, [name]) <$> names)
         (files w) (files (make_all names w).2).
Proof.
  induction 1 as [|name names Hplain _ IH]; intros w;
    [apply only_added_refl|].
  rewrite (make_all_cons _ _ _ Hplain), fmap_cons.
  destruct (files w !! [name]) as [[d|]|] eqn:E.
  - apply only_added_refl.
  - apply only_added_cons.
    exact (IH {| files := files w; log := log w ++ [EvMakedirs name] |}).
  - apply only_added_step; [done|].
    exact (IH {| files := <[ [name] := Dir ]> (files w);
                 log := log w ++ [EvMakedirs name] |}).
Qed.

(** A pass that returns has made every call and left every name a
    directory. *)
Lemma make_all_ok names :
  Forall plain names →
  ∀ w w', make_all names w = (Ok tt, w') →
    Forall (λ name, files w' !! [name] = Some Dir) names ∧
    log w' = (log w ++ (EvMakedirs <$> names))%list.
Proof.
  induction 1 as [|name names Hplain _ IH]; intros w w' Hrun.
  - injection Hrun as <-. split; [done|]. simpl. by rewrite app_nil_r.
  - rewrite (make_all_cons _ _ _ Hplain) in Hrun.
    assert (∃ w1, make_all names w1 = (Ok tt, w') ∧
                  files w1 !! [name] = Some Dir ∧
                  log w1 = (log w ++ [EvMakedirs name])%list)
      as (w1 & Hrest & Hd & Hl).
    { destruct (files w !! [name]) as [[d|]|] eqn:E; [done| |];
        eexists; (split; [exact Hrun|]); simpl; [done|].
      split; [apply lookup_insert_eq|done]. }
    destruct (IH _ _ Hrest) as [Hdirs Hlog].
    pose proof (make_all_dirs_added names w1) as Hadd.
    rewrite Hrest in Hadd. simpl in Hadd.
    split.
    + constructor; [by eapply dirs_added_lookup|done].
    + rewrite Hlog, Hl, fmap_cons. by rewrite <- app_assoc.
Qed.

Lemma categories_plain : Forall plain categories.
Proof. repeat constructor. Qed.

Lemma organize_datasets_make_all :
  organize_datasets = make_all categories.
Proof. reflexivity. Qed.

(** The script as written is the script over its list literal. *)
Lemma main_main_on `{Platform} : main = main_on datasets.
Proof. reflexivity. Qed.

End makedirs_facts.

(** ** The fetcher's loop *)

Module fetcher_facts.
Import unpack_facts.

Lemma remove_log z w : log (os.remove z w).2 = (log w ++ [EvRemove z])%list.
Proof.
  unfold os.remove, bind, emit, get_files, put_files, raise. simpl.
  destruct (node_at (files w) (to_path z)) as [[d|]|]; done.
Qed.

Lemma runs_of_rounds ds :
  ∀ founds, length founds = length ds →
  List.filter is_run (flat_map download_round (zip ds founds))
  = (λ d, EvRun (download_command d)) <$> ds.
Proof.
  induction ds as [|d ds IH]; intros [|found founds] Hlen;
    simpl in *; try done.
  rewrite List.filter_app, IH by lia.
  by destruct found.
Qed.

Lemma runs_of_run_calls ds founds :
  length founds = length ds →
  List.filter is_run (run_calls ds founds)
  = (λ d, EvRun (download_command d)) <$> ds.
Proof.
  intros Hlen. unfold run_calls.
  rewrite List.filter_app, runs_of_rounds by done.
  simpl. by rewrite app_nil_r.
Qed.

Lemma makedirs_of_run_calls ds founds :
  List.filter is_makedirs (run_calls ds founds) = EvMakedirs <$> categories.
Proof.
  unfold run_calls. rewrite List.filter_app.
  assert (List.filter is_makedirs
            (flat_map download_round (zip ds founds)) = []) as ->; [|done].
  induction (zip ds founds) as [|[d found] l IH]; simpl; [done|].
  rewrite List.filter_app, IH. by destruct found.
Qed.

Section with_platform.
Context `{Platform}.

(** [subprocess.run] step by step. *)
Lemma run_unfold args w :
  subprocess.run args w =
  match run_program args (files w) with
  | Some (fs', rc) =>
      (Ok {| subprocess.returncode := rc |},
       {| files := fs'; log := log w ++ [EvRun args] |})
  | None =>
      (Raise FileNotFoundError,
       {| files := files w; log := log w ++ [EvRun args] |})
  end.
Proof.
  unfold subprocess.run, bind, emit, get_files, put_files, ret, raise. simpl.
  destruct (run_program args (files w)) as [[fs' rc]|]; done.
Qed.

(** The calls of the extractor. *)
Lemma unzip_made_calls dataset w :
  ∃ found, made_calls (unzip_datasets dataset) w
             (extractor_calls (archive_name dataset) found).
Proof.
  unfold made_calls. rewrite unzip_datasets_unfold. cbv zeta.
  destruct (files w !! [archive_name dataset]) as [n|].
  - set (w1 := {| files := files w; log := _ |}).
    pose proof (unpack_archive_log (archive_name dataset) w1) as Hlog.
    exists true.
    destruct (shutil.unpack_archive (archive_name dataset) w1)
      as [[[]|e] w2]; simpl in Hlog.
    + pose proof (remove_log (archive_name dataset) w2) as Hlog2.
      eexists. split; [|split; [reflexivity|done]].
      rewrite Hlog2, Hlog. simpl. by rewrite <- !app_assoc.
    + exists [EvExists (archive_name dataset);
              EvUnpack (archive_name dataset)].
      split; [simpl; rewrite Hlog; by rewrite <- app_assoc|].
      split; [|done]. by exists [EvRemove (archive_name dataset)].
  - exists false, [EvExists (archive_name dataset)]. done.
Qed.

(** The calls of one round of the loop. *)
Lemma round_made_calls d w :
  ∃ found,
    made_calls (_ ← subprocess.run (download_command d); unzip_datasets d) w
      (download_round (d, found)).
Proof.
  destruct (subprocess.run (download_command d) w) as [[cp|e] w1] eqn:Hdl.
  - destruct (unzip_made_calls d w1) as [found Hu]. exists found.
    apply (made_calls_bind _ _ _ [EvRun (download_command d)]).
    + apply made_calls_exact. rewrite run_unfold.
      by destruct (run_program _ _) as [[fs' rc]|].
    + by rewrite Hdl.
  - exists false.
    apply (made_calls_bind _ _ _ [EvRun (download_command d)]).
    + apply made_calls_exact. rewrite run_unfold.
      by destruct (run_program _ _) as [[fs' rc]|].
    + by rewrite Hdl.
Qed.

(** The calls of the fetcher. *)
Lemma download_made_calls ds :
  ∀ w, ∃ founds, length founds = length ds ∧
    made_calls (download_datasets_on ds) w
      (flat_map download_round (zip ds founds)).
Proof.
  induction ds as [|d ds IH]; intros w.
  - exists []. split; [done|]. apply made_calls_exact. simpl.
    by rewrite app_nil_r.
  - destruct (round_made_calls d w) as [found Hround].
    unfold download_datasets_on. simpl for_each.
    fold (download_datasets_on ds).
    destruct ((_ ← subprocess.run (download_command d); unzip_datasets d) w)
      as [[[]|e] w1] eqn:Hbody.
    + destruct (IH w1) as (founds & Hlen & Hrest).
      exists (found :: founds). split; [simpl; by rewrite Hlen|].
      apply (made_calls_bind _ _ _ (download_round (d, found))); [done|].
      by rewrite Hbody.
    + exists (found :: replicate (length ds) false).
      split; [simpl; by rewrite length_replicate|].
      apply (made_calls_bind _ _ _ (download_round (d, found))); [done|].
      by rewrite Hbody.
Qed.

(** The calls of the organizer's loop. *)
Lemma make_all_made_calls names :
  ∀ w, made_calls (make_all names) w (EvMakedirs <$> names).
Proof.
  induction names as [|name names IH]; intros w.
  - apply made_calls_exact. simpl. by rewrite app_nil_r.
  - unfold make_all. simpl for_each. fold (make_all names).
    apply (made_calls_bind _ _ _ [EvMakedirs name]).
    + apply made_calls_exact. unfold os.makedirs, bind, emit.
      by destruct (makedirs_path_spec (to_path name) true
        {| files := files w; log := log w ++ [EvMakedirs name] |})
        as [_ ->].
    + destruct (os.makedirs name true w) as [[[]|e] w1]; [apply IH|done].
Qed.

(** The calls of the whole script. *)
Lemma main_on_made_calls ds w :
  ∃ founds, length founds = length ds ∧
    made_calls (main_on ds) w (run_calls ds founds).
Proof.
  destruct (download_made_calls ds w) as (founds & Hlen & Hdl).
  exists founds. split; [done|].
  apply made_calls_bind; [done|].
  destruct (download_datasets_on ds w) as [[[]|e] w1]; [|done].
  apply (make_all_made_calls categories).
Qed.

End with_platform.
End fetcher_facts.

(** ** More facts about loops, extraction and directory creation *)

Module more_facts.
Import shutil_facts unpack_facts fetcher_facts makedirs_facts.

(** A loop that has returned on a first part of its list goes on with
    the rest from the world the first part left. *)
Lemma for_each_app_run {A} (body : A → M unit) pre post w0 w :
  for_each pre body w0 = (Ok tt, w) →
  for_each (pre ++ post) body w0 = for_each post body w.
Proof.
  revert w0. induction pre as [|x pre IH]; simpl; intros w0 Hpre.
  - by injection Hpre as ->.
  - apply bind_inv_ok in Hpre as ([] & w1 & Hx & Hrest).
    rewrite (bind_ok _ _ _ _ _ Hx). by apply IH.
Qed.

Lemma extract_member_skipped z a im w :
  shutil.skipped im.2.1 = true → shutil.extract_member z a im w = (Ok tt, w).
Proof. intros Hs. unfold shutil.extract_member. by rewrite Hs. Qed.

Lemma extract_all_skipped z a ms k w :
  Forall (λ m : string * read_outcome, shutil.skipped m.1 = true) ms →
  for_each (enumerate_from k ms) (shutil.extract_member z a) w = (Ok tt, w).
Proof.
  intros Hall. revert k.
  induction Hall as [|m ms Hm _ IH]; intros k; simpl; [done|].
  by rewrite (bind_ok _ _ _ _ _ (extract_member_skipped z a (k, m) w Hm)).
Qed.

(** Filtering keeps beginnings. *)
Lemma prefix_filter {A} (f : A → bool) (l1 l2 : list A) :
  l1 `prefix_of` l2 → List.filter f l1 `prefix_of` List.filter f l2.
Proof. intros [k ->]. rewrite List.filter_app. by eexists. Qed.

(** What [os.remove] of an archive name does to the working directory. *)
Lemma remove_archive_cases dataset w :
  (∃ bytes, files w !! [archive_name dataset] = Some (File bytes) ∧
     os.remove (archive_name dataset) w =
     (Ok tt, {| files := delete [archive_name dataset] (files w);
                log := log w ++ [EvRemove (archive_name dataset)] |}))
  ∨ ((∀ bytes, files w !! [archive_name dataset] ≠ Some (File bytes)) ∧
     ∃ e, os.remove (archive_name dataset) w =
          (Raise e, {| files := files w;
                       log := log w ++ [EvRemove (archive_name dataset)] |})).
Proof.
  unfold os.remove, bind, emit, get_files, put_files, raise.
  rewrite to_path_archive_name. simpl.
  destruct (files w !! [archive_name dataset]) as [[bytes|]|].
  - left. eauto.
  - right. split; [done|eauto].
  - right. split; [done|eauto].
Qed.

Section with_platform.
Context `{Platform}.

(** What is at the archive name is refused before anything is
    extracted: unpacking raises and changes nothing. *)
Lemma unpack_archive_refused dataset n e w :
  files w !! [archive_name dataset] = Some n →
  refusal n = Some e →
  shutil.unpack_archive (archive_name dataset) w =
  (Raise e,
   {| files := files w; log := log w ++ [EvUnpack (archive_name dataset)] |}).
Proof.
  intros Hn Hbad.
  unfold shutil.unpack_archive, shutil.unpack_zipfile, bind, emit, get_files,
    raise.
  rewrite archive_name_endswith, to_path_archive_name. simpl. rewrite Hn.
  destruct n as [bytes|]; simpl in Hbad; [|by injection Hbad as <-].
  destruct (zip_open bytes) as [[a|e']|]; [done|by injection Hbad as <-..].
Qed.

(** After an unpacking that returned, the archive is still a regular
    file and the removal goes through. *)
Lemma unzip_datasets_found dataset n w :
  files w !! [archive_name dataset] = Some n →
  unzip_datasets dataset w =
  match shutil.unpack_archive (archive_name dataset)
          {| files := files w;
             log := log w ++ [EvExists (archive_name dataset)] |} with
  | (Ok _, w2) =>
      (Ok tt, {| files := delete [archive_name dataset] (files w2);
                 log := log w2 ++ [EvRemove (archive_name dataset)] |})
  | (Raise e, w2) => (Raise e, w2)
  end.
Proof.
  intros Hn. rewrite unzip_datasets_unfold. cbv zeta. rewrite Hn.
  set (w1 := {| files := files w; log := _ |}).
  destruct (shutil.unpack_archive (archive_name dataset) w1)
    as [[[]|e] w2] eqn:Hun; [|done].
  destruct n as [bytes|].
  - destruct (unpack_archive_file (archive_name dataset) w1
                [archive_name dataset] bytes Hn) as [bytes' Hb].
    rewrite Hun in Hb. simpl in Hb. by apply remove_file with bytes'.
  - rewrite (unpack_archive_refused dataset Dir ReadError w1 Hn) in Hun;
      done.
Qed.

End with_platform.

(** The organizer's loop returns exactly when none of its names is a
    regular file. *)
Lemma not_file_at_insert fs name c :
  fs !! [name] = None →
  not_file_at (<[ [name] := Dir ]> fs) c ↔ not_file_at fs c.
Proof.
  intros Hfree. unfold not_file_at.
  destruct (decide (name = c)) as [->|Hne].
  - split; intros _ d; [congruence|by rewrite lookup_insert_eq].
  - split; intros Hc d; specialize (Hc d);
      rewrite lookup_insert_ne in * by congruence; done.
Qed.

Lemma make_all_ok_iff names :
  Forall plain names →
  ∀ w, (make_all names w).1 = Ok tt ↔ Forall (not_file_at (files w)) names.
Proof.
  induction 1 as [|name names Hplain _ IH]; intros w; [done|].
  rewrite (make_all_cons _ _ _ Hplain), Forall_cons.
  destruct (files w !! [name]) as [[d|]|] eqn:E.
  - split; [done|]. intros [Hnf _]. by destruct (Hnf d).
  - rewrite IH. simpl. split; [|tauto].
    intros Hall. split; [|done]. intros d. congruence.
  - rewrite IH. simpl. rewrite Forall_forall.
    setoid_rewrite (not_file_at_insert (files w) name _ E).
    rewrite <- Forall_forall. split; [|tauto].
    intros Hall. split; [|done]. intros d. congruence.
Qed.

(** The loop stops at the first name that is a regular file: the names
    before it are directories then, and nothing else has changed. *)
Lemma make_all_blocked pre c post d :
  Forall plain (pre ++ c :: post) →
  ∀ w, Forall (not_file_at (files w)) pre →
    files w !! [c] = Some (File d) →
    ∃ w', make_all (pre ++ c :: post) w = (Raise FileExistsError, w') ∧
      log w' = (log w ++ (EvMakedirs <$> pre ++ [c]))%list ∧
      Forall (λ p, files w' !! [p] = Some Dir) pre ∧
      only_added ((λ p, [p]) <$> pre) (files w) (files w').
Proof.
  induction pre as [|p pre IH]; simpl; intros Hplain w Hpre Hc;
    inversion Hplain as [|? ? Hp Hrest]; subst.
  - rewrite (make_all_cons _ _ _ Hp), Hc. eexists. split; [done|].
    simpl. split; [done|]. split; [done|]. apply only_added_refl.
  - inversion Hpre as [|? ? Hnf Hpre']; subst.
    rewrite (make_all_cons _ _ _ Hp).
    destruct (files w !! [p]) as [[d'|]|] eqn:E; [by destruct (Hnf d')| |].
    + destruct (IH Hrest
        {| files := files w; log := log w ++ [EvMakedirs p] |} Hpre' Hc)
        as (w' & Hrun & Hlog & Hdirs & Hadd).
      exists w'. split; [done|]. simpl in Hlog, Hadd.
      split; [rewrite Hlog; by rewrite <- app_assoc|].
      split; [|by apply only_added_cons].
      constructor; [|done].
      destruct (Hadd [p]) as [->|(_ & ? & _)]; congruence.
    + assert (Forall (not_file_at (<[ [p] := Dir ]> (files w))) pre) as Hpre''.
      { rewrite Forall_forall in *. intros x Hx.
        apply not_file_at_insert; auto. }
      assert (<[ [p] := Dir ]> (files w) !! [c] = Some (File d)) as Hc'.
      { rewrite lookup_insert_ne; [done|]. congruence. }
      destruct (IH Hrest
        {| files := <[ [p] := Dir ]> (files w);
           log := log w ++ [EvMakedirs p] |} Hpre'' Hc')
        as (w' & Hrun & Hlog & Hdirs & Hadd).
      exists w'. split; [done|]. simpl in Hlog, Hadd.
      split; [rewrite Hlog; by rewrite <- app_assoc|].
      split; [|by apply only_added_step].
      constructor; [|done].
      destruct (Hadd [p]) as [->|(_ & E' & _)];
        [apply lookup_insert_eq|by rewrite lookup_insert_eq in E'].
Qed.

End more_facts.

(** * Properties of the script *)

Section archive_name_properties.

(** C3. For an identifier [owner/name] whose [name] has no separator,
    splitting on ['/'] and taking the last piece gives [name], and the
    archive file name the extractor derives is exactly [name.zip]. *)
Theorem zip_file_name_owner_name (owner name : string) :
  PyStr.free_of slash name = true →
  last (PyStr.split slash (owner ++ "/" ++ name)) = Some name ∧
  zip_file_name (owner ++ "/" ++ name) = Ok (name ++ ".zip").
Proof.
  intros Hfree.
  assert (last (PyStr.split slash (owner ++ "/" ++ name)) = Some name) as E.
  { change ("/" ++ name) with (String slash name).
    rewrite last_split_app. by rewrite split_free. }
  split; [exact E|].
  unfold zip_file_name, index_last. by rewrite E.
Qed.

Lemma zip_file_name_owner_name_witness :
  PyStr.free_of slash "dataset1" = true ∧
  last (PyStr.split slash ("username" ++ "/" ++ "dataset1"))
    = Some "dataset1" ∧
  zip_file_name ("username" ++ "/" ++ "dataset1") = Ok ("dataset1" ++ ".zip").
Proof.
  split; [reflexivity|].
  apply (zip_file_name_owner_name "username" "dataset1"). reflexivity.
Defined.

(** C9. The derivation of the archive file name never fails: for every
    identifier the split has a last piece and the result is that piece
    followed by [.zip]; for an identifier without a separator the result
    is the whole identifier followed by [.zip]. *)
Theorem zip_file_name_total (dataset : string) :
  (∃ seg, last (PyStr.split slash dataset) = Some seg ∧
          zip_file_name dataset = Ok (seg ++ ".zip")) ∧
  (PyStr.free_of slash dataset = true →
   zip_file_name dataset = Ok (dataset ++ ".zip")).
Proof.
  split; [apply zip_file_name_last|].
  intros Hfree. unfold zip_file_name, index_last.
  by rewrite split_free.
Qed.

Lemma zip_file_name_total_witness :
  PyStr.free_of slash "dataset1" = true ∧
  zip_file_name "dataset1" = Ok ("dataset1" ++ ".zip").
Proof.
  split; [reflexivity|].
  apply (zip_file_name_total "dataset1"). reflexivity.
Defined.

End archive_name_properties.

Section extractor_properties.
Context `{Platform}.
Import shutil_facts unpack_facts.


(** C2. When nothing exists at [name.zip], the extractor returns without
    an exception and leaves the working directory as it was; the only
    call it makes is the existence query. *)
Theorem unzip_missing_archive dataset w :
  files w !! [archive_name dataset] = None →
  unzip_datasets dataset w =
  (Ok tt, {| files := files w;
             log := log w ++ [EvExists (archive_name dataset)] |}).
Proof.
  intros Hnone. rewrite unzip_datasets_unfold. cbv zeta. by rewrite Hnone.
Qed.

(** C10. When something exists at [name.zip] and unpacking it raises,
    the extractor raises the same exception, [remove] is not called, and
    what is at [name.zip] is still there: a regular file if it was one. *)
Theorem unzip_unpack_raises dataset w e w' :
  is_Some (files w !! [archive_name dataset]) →
  shutil.unpack_archive (archive_name dataset)
    {| files := files w;
       log := log w ++ [EvExists (archive_name dataset)] |}
    = (Raise e, w') →
  unzip_datasets dataset w = (Raise e, w') ∧
  log w' = (log w ++ [EvExists (archive_name dataset);
                      EvUnpack (archive_name dataset)])%list ∧
  is_Some (files w' !! [archive_name dataset]) ∧
  (∀ bytes, files w !! [archive_name dataset] = Some (File bytes) →
            ∃ bytes', files w' !! [archive_name dataset] = Some (File bytes')).
Proof.
  intros [n Hn] Hraise.
  split; [rewrite unzip_datasets_unfold; cbv zeta; by rewrite Hn, Hraise|].
  set (w1 := {| files := files w; log := _ |}) in *.
  pose proof (unpack_archive_log (archive_name dataset) w1) as Hlog.
  rewrite Hraise in Hlog. simpl in Hlog.
  split; [rewrite Hlog; by rewrite <- app_assoc|].
  assert (∀ bytes, files w !! [archive_name dataset] = Some (File bytes) →
    ∃ bytes', files w' !! [archive_name dataset] = Some (File bytes'))
    as Hfile.
  { intros bytes Hb.
    destruct (unpack_archive_file (archive_name dataset) w1
                [archive_name dataset] bytes Hb) as [bytes' Hb'].
    rewrite Hraise in Hb'. eauto. }
  split; [|exact Hfile].
  destruct n as [bytes|].
  - destruct (Hfile bytes Hn) as [bytes' ->]. eauto.
  - pose proof (unpack_archive_dir (archive_name dataset) w1
                  [archive_name dataset] Hn) as Hd.
    rewrite Hraise in Hd. simpl in Hd. rewrite Hd. eauto.
Qed.

End extractor_properties.

Section extractor_runs.
Import shutil_facts.



Lemma unzip_missing_archive_witness :
  files empty_world !! [archive_name "a/ds1"] = None ∧
  @unzip_datasets demo "a/ds1" empty_world =
  (Ok tt, {| files := ∅; log := [EvExists "ds1.zip"] |}).
Proof.
  split; [reflexivity|].
  apply (unzip_missing_archive (H := demo) "a/ds1" empty_world). reflexivity.
Defined.

Lemma unzip_unpack_raises_witness :
  @shutil.unpack_archive demo "ds1.zip"
    {| files := files (archive_world "garbage");
       log := [EvExists "ds1.zip"] |}
  = (Raise ReadError,
     {| files := files (archive_world "garbage");
        log := [EvExists "ds1.zip"; EvUnpack "ds1.zip"] |}) ∧
  @unzip_datasets demo "a/ds1" (archive_world "garbage")
  = (Raise ReadError,
     {| files := files (archive_world "garbage");
        log := [EvExists "ds1.zip"; EvUnpack "ds1.zip"] |}).
Proof.
  assert (@shutil.unpack_archive demo (archive_name "a/ds1")
    {| files := files (archive_world "garbage");
       log := log (archive_world "garbage")
              ++ [EvExists (archive_name "a/ds1")] |}
    = (Raise ReadError,
       {| files := files (archive_world "garbage");
          log := [EvExists "ds1.zip"; EvUnpack "ds1.zip"] |})) as Hraise
    by (vm_compute; reflexivity).
  split; [exact Hraise|].
  refine (proj1 (unzip_unpack_raises (H := demo) "a/ds1"
                   (archive_world "garbage") ReadError _ _ Hraise)).
  vm_compute. eauto.
Defined.

End extractor_runs.

Section organizer_properties.
Import makedirs_facts more_facts.

(** C4, as amended.  A second run of the organizer returns what the
    first run returned and leaves the working directory as the first run
    left it; a run changes nothing in the working directory except that
    it makes a directory of a free path among the four category names
    [fresh], [light_damage], [moderate_damage], [severe_damage]; and
    when the first run returned without an exception, so does the
    second, and exactly these four are directories afterwards among the
    paths a run may have made. *)
Theorem organize_twice w :
  (organize_datasets (organize_datasets w).2).1 = (organize_datasets w).1 ∧
  files (organize_datasets (organize_datasets w).2).2
    = files (organize_datasets w).2 ∧
  (∀ q, files (organize_datasets w).2 !! q = files w !! q ∨
        (q ∈ [["fresh"]; ["light_damage"]; ["moderate_damage"]; ["severe_damage"]] ∧
         files w !! q = None ∧
         files (organize_datasets w).2 !! q = Some Dir)) ∧
  ((organize_datasets w).1 = Ok tt →
   (organize_datasets (organize_datasets w).2).1 = Ok tt ∧
   Forall (λ c, files (organize_datasets (organize_datasets w).2).2 !! [c]
                = Some Dir)
     ["fresh"; "light_damage"; "moderate_damage"; "severe_damage"]).
Proof.
  rewrite organize_datasets_make_all.
  pose proof (make_all_frame categories categories_plain w) as Hframe.
  destruct (make_all categories w) as [r w1] eqn:Hfirst.
  destruct w as [fs l], w1 as [fs1 l1].
  destruct (make_all_twice categories categories_plain fs l l1 r _ Hfirst)
    as [l2 Hsecond].
  cbn [files snd fst] in *. rewrite Hsecond. cbn [files snd fst].
  split; [done|]. split; [done|]. split; [exact Hframe|].
  intros ->. split; [done|].
  by destruct (make_all_ok categories categories_plain _ _ Hfirst).
Qed.

Lemma organize_twice_witness :
  (organize_datasets empty_world).1 = Ok tt ∧
  (organize_datasets (organize_datasets empty_world).2).1 = Ok tt ∧
  Forall (λ c,
    files (organize_datasets (organize_datasets empty_world).2).2 !! [c]
    = Some Dir)
    ["fresh"; "light_damage"; "moderate_damage"; "severe_damage"].
Proof.
  split; [reflexivity|].
  apply (proj2 (proj2 (proj2 (organize_twice empty_world)))). reflexivity.
Defined.

(** C4 as stated fails: from a working directory where [fresh] is a
    regular file, the second run raises [FileExistsError] (as the first
    one did). *)
Lemma organize_twice_blocked :
  files blocked_world !! ["fresh"] = Some (File "x") ∧
  (organize_datasets (organize_datasets blocked_world).2).1
    = Raise FileExistsError.
Proof. vm_compute. split; reflexivity. Qed.




End organizer_properties.

Section fetcher_properties.
Import unpack_facts fetcher_facts makedirs_facts more_facts.

(** C5, as amended.  In a run of the script that returns without an
    exception, the calls made are, for each dataset in list order, one
    download followed at once by the extractor's calls for the same
    dataset (the existence query for its archive and, when found, the
    unpacking and the removal), and after the last dataset the
    organizer's four [makedirs] calls: the downloads are exactly one
    per dataset, in list order.  In a run that an exception ends, the
    calls made are a beginning of such a sequence, so the downloads are
    those of a beginning of the list, one each.  The script as written
    is the run over its three identifiers. *)
Theorem main_on_calls `{Platform} ds w :
  (∃ founds new,
     length founds = length ds ∧
     log (main_on ds w).2 = (log w ++ new)%list ∧
     new `prefix_of` run_calls ds founds ∧
     List.filter is_run new `prefix_of`
       ((λ d, EvRun ["kaggle"; "datasets"; "download"; d]) <$> ds) ∧
     ((main_on ds w).1 = Ok tt →
      new = run_calls ds founds ∧
      List.filter is_run new
      = (λ d, EvRun ["kaggle"; "datasets"; "download"; d]) <$> ds ∧
      List.filter is_makedirs new
      = [EvMakedirs "fresh"; EvMakedirs "light_damage";
         EvMakedirs "moderate_damage"; EvMakedirs "severe_damage"])) ∧
  main = main_on ["username/dataset1"; "username/dataset2";
                  "username/dataset3"].
Proof.
  split; [|reflexivity].
  destruct (main_on_made_calls ds w)
    as (founds & Hlen & new & Hlog & Hpre & Hfull).
  exists founds, new. split; [done|]. split; [done|]. split; [done|].
  split.
  - pose proof (prefix_filter is_run _ _ Hpre) as Hruns.
    rewrite (runs_of_run_calls ds founds Hlen) in Hruns. exact Hruns.
  - intros Hok. rewrite (Hfull tt Hok). split; [done|].
    split; [exact (runs_of_run_calls ds founds Hlen)|].
    exact (makedirs_of_run_calls ds founds).
Qed.

Lemma main_on_calls_witness :
  (@main_on demo ["a/ds1"; "b/ds2"] empty_world).1 = Ok tt ∧
  ∃ founds,
    length founds = 2 ∧
    log (@main_on demo ["a/ds1"; "b/ds2"] empty_world).2
    = run_calls ["a/ds1"; "b/ds2"] founds.
Proof.
  split; [vm_compute; reflexivity|].
  destruct (proj1 (main_on_calls (H := demo) ["a/ds1"; "b/ds2"] empty_world))
    as (founds & new & Hlen & Hlog & _ & _ & Hfull).
  exists founds. split; [exact Hlen|].
  rewrite Hlog. apply Hfull. vm_compute. reflexivity.
Defined.

(** C5 as stated fails: when the download tool cannot be started the
    script as written makes one download call, for the first of its
    three identifiers, and no other call: the other two are not
    downloaded and the organizer does not run. *)
Lemma main_stops_at_failed_download :
  @main no_tool empty_world =
  (Raise FileNotFoundError,
   {| files := ∅;
      log := [EvRun ["kaggle"; "datasets"; "download";
                     "username/dataset1"]] |}).
Proof. vm_compute. reflexivity. Qed.

(** The extractor does not depend on the download tool. *)
Lemma unzip_datasets_ext (P1 P2 : Platform) :
  (∀ bytes, @zip_open P1 bytes = @zip_open P2 bytes) →
  ∀ dataset w, @unzip_datasets P1 dataset w = @unzip_datasets P2 dataset w.
Proof.
  intros Hzip dataset w.
  rewrite !unzip_datasets_unfold. cbv zeta.
  destruct (files w !! [archive_name dataset]); [|done].
  assert (∀ z w1, @shutil.unpack_archive P1 z w1
                  = @shutil.unpack_archive P2 z w1) as ->; [|done].
  intros z w1. unfold shutil.unpack_archive, shutil.unpack_zipfile, bind.
  destruct (emit (EvUnpack z) w1) as [[[]|e] w2]; [|done].
  destruct (PyStr.endswith ".zip" z); [|done].
  destruct (get_files w2) as [[fs|e] w3]; [|done].
  destruct (node_at fs (to_path z)) as [[bytes|]|]; [|done..].
  by rewrite Hzip.
Qed.

(** C6. Two download tools that leave the same working directory behind
    and differ in nothing but the exit status they report (and two zip
    readers that agree) make the fetcher do the same thing: the same
    result, the same working directory and the same calls in the same
    order.  Whatever status a download reports, what follows it is the
    extractor for the same dataset and then the rest of the list: the
    status is never looked at and the download is not repeated. *)
Theorem download_ignores_exit_status (P1 P2 : Platform) :
  (∀ bytes, @zip_open P1 bytes = @zip_open P2 bytes) →
  (∀ args fs, fst <$> @run_program P1 args fs
              = fst <$> @run_program P2 args fs) →
  (∀ ds w, @download_datasets_on P1 ds w = @download_datasets_on P2 ds w) ∧
  (∀ d ds w fs' rc,
     @run_program P1 (download_command d) (files w) = Some (fs', rc) →
     @download_datasets_on P1 (d :: ds) w
     = (@unzip_datasets P1 d ;; @download_datasets_on P1 ds)
         {| files := fs'; log := log w ++ [EvRun (download_command d)] |}).
Proof.
  intros Hzip Hrun. split.
  - intros ds. induction ds as [|d ds IH]; intros w; [done|].
    unfold download_datasets_on. simpl for_each.
    fold (@download_datasets_on P1 ds). fold (@download_datasets_on P2 ds).
    unfold bind. rewrite !run_unfold.
    specialize (Hrun (download_command d) (files w)).
    destruct (@run_program P1 (download_command d) (files w))
      as [[fs1 rc1]|],
      (@run_program P2 (download_command d) (files w)) as [[fs2 rc2]|];
      simpl in Hrun; try done.
    injection Hrun as <-.
    rewrite (unzip_datasets_ext P1 P2 Hzip).
    destruct (@unzip_datasets P2 d _) as [[[]|e] w1]; [apply IH|done].
  - intros d ds w fs' rc Hdl.
    unfold download_datasets_on. simpl for_each.
    fold (@download_datasets_on P1 ds).
    unfold bind. by rewrite run_unfold, Hdl.
Qed.

Lemma download_ignores_exit_status_witness :
  @run_program demo (download_command "b/ds2") ∅ = Some (∅, 1%Z) ∧
  @run_program demo_flipped (download_command "b/ds2") ∅ = Some (∅, 0%Z) ∧
  @download_datasets_on demo ["a/ds1"; "b/ds2"] empty_world
  = @download_datasets_on demo_flipped ["a/ds1"; "b/ds2"] empty_world.
Proof.
  split; [reflexivity|]. split; [reflexivity|].
  apply (download_ignores_exit_status demo demo_flipped).
  - reflexivity.
  - intros args fs. simpl.
    destruct (demo_run_program args fs) as [[fs' rc]|]; reflexivity.
Defined.



End fetcher_properties.

(** * Further properties of the script *)

Section archive_name_more.

(** X1. Only what follows the last ['/'] of an identifier counts: two
    identifiers that end in the same [/name] get the same archive file
    name, whatever precedes it, and an identifier that ends in ['/']
    gets the bare name [.zip]. *)
Theorem zip_file_name_ignores_prefix (p q s : string) :
  zip_file_name (p ++ "/" ++ s) = zip_file_name s ∧
  zip_file_name (p ++ "/" ++ s) = zip_file_name (q ++ "/" ++ s) ∧
  zip_file_name (p ++ "/") = Ok ".zip".
Proof.
  assert (∀ a b, zip_file_name (a ++ "/" ++ b) = zip_file_name b) as Hpre.
  { intros a b. unfold zip_file_name, index_last.
    change ("/" ++ b) with (String slash b). by rewrite last_split_app. }
  split; [apply Hpre|]. split; [by rewrite !Hpre|].
  change (p ++ "/") with (p ++ "/" ++ EmptyString). by rewrite Hpre.
Qed.

(** X2. The archive file name is always one path component that ends
    in [.zip]: it has no ['/'], so the extractor tests and removes a
    file directly in the working directory, never below it. *)
Theorem zip_file_name_one_component (dataset : string) :
  ∃ z, zip_file_name dataset = Ok z ∧
       PyStr.free_of slash z = true ∧
       PyStr.endswith ".zip" z = true ∧
       to_path z = [z].
Proof.
  exists (archive_name dataset).
  split; [apply zip_file_name_archive|].
  split; [apply archive_name_free|].
  split; [apply archive_name_endswith|apply to_path_archive_name].
Qed.

End archive_name_more.

Section extractor_more.
Context `{Platform}.
Import shutil_facts unpack_facts more_facts.

(** X3. Whenever the extractor returns without an exception, nothing
    exists at the archive name afterwards, whether an archive was there
    or not. *)
Theorem unzip_returns_archive_gone dataset w w' :
  unzip_datasets dataset w = (Ok tt, w') →
  files w' !! [archive_name dataset] = None.
Proof.
  destruct (files w !! [archive_name dataset]) as [n|] eqn:E.
  - rewrite (unzip_datasets_found dataset n w E).
    destruct (shutil.unpack_archive _ _) as [[[]|e] w2]; [|done].
    intros [= <-]. apply lookup_delete_eq.
  - rewrite unzip_datasets_unfold. cbv zeta. rewrite E.
    by intros [= <-].
Qed.

(** X4. An exception out of the extractor is always the one
    [unpack_archive] raised, on something that exists at the archive
    name: neither the derivation of the name, nor the existence test,
    nor the removal raises. *)
Theorem unzip_raises_only_from_unpack dataset w e w' :
  unzip_datasets dataset w = (Raise e, w') →
  is_Some (files w !! [archive_name dataset]) ∧
  shutil.unpack_archive (archive_name dataset)
    {| files := files w;
       log := log w ++ [EvExists (archive_name dataset)] |}
  = (Raise e, w').
Proof.
  destruct (files w !! [archive_name dataset]) as [n|] eqn:E.
  - rewrite (unzip_datasets_found dataset n w E).
    destruct (shutil.unpack_archive _ _) as [[[]|e'] w2]; [done|].
    intros [= <- <-]. eauto.
  - rewrite unzip_datasets_unfold. cbv zeta. by rewrite E.
Qed.

(** X5. Running the extractor again after it has returned does nothing
    but ask once more whether the archive exists. *)
Theorem unzip_twice dataset w w1 :
  unzip_datasets dataset w = (Ok tt, w1) →
  unzip_datasets dataset w1 =
  (Ok tt, {| files := files w1;
             log := log w1 ++ [EvExists (archive_name dataset)] |}).
Proof.
  intros Hfirst.
  assert (files w1 !! [archive_name dataset] = None) as Hgone.
  { destruct (files w !! [archive_name dataset]) as [n|] eqn:E.
    - rewrite (unzip_datasets_found dataset n w E) in Hfirst.
      destruct (shutil.unpack_archive _ _) as [[[]|e] w2]; [|done].
      injection Hfirst as <-. apply lookup_delete_eq.
    - rewrite unzip_datasets_unfold in Hfirst. cbv zeta in Hfirst.
      rewrite E in Hfirst. by injection Hfirst as <-. }
  rewrite unzip_datasets_unfold. cbv zeta. by rewrite Hgone.
Qed.

(** X6. Whatever the extractor does and however it ends, a directory
    stays a directory, and a regular file other than the archive stays
    a regular file: nothing but the archive is deleted. *)
Theorem unzip_keeps_kinds dataset w q :
  (files w !! q = Some Dir →
   files (unzip_datasets dataset w).2 !! q = Some Dir) ∧
  (∀ d, q ≠ [archive_name dataset] →
        files w !! q = Some (File d) →
        ∃ d', files (unzip_datasets dataset w).2 !! q = Some (File d')).
Proof.
  destruct (files w !! [archive_name dataset]) as [n|] eqn:E.
  - rewrite (unzip_datasets_found dataset n w E).
    set (w1 := {| files := files w; log := _ |}).
    pose proof (unpack_archive_dir (archive_name dataset) w1 q) as Hdir.
    pose proof (λ d, unpack_archive_file (archive_name dataset) w1 q d)
      as Hfile.
    destruct (shutil.unpack_archive (archive_name dataset) w1)
      as [[[]|e] w2] eqn:Hun; simpl in *;
      [|split; [exact Hdir|intros d _; exact (Hfile d)]].
    split.
    + intros Hq. rewrite lookup_delete_ne; [by apply Hdir|].
      intros <-. rewrite E in Hq. injection Hq as ->.
      rewrite (unpack_archive_refused dataset Dir ReadError w1 E) in Hun;
        done.
    + intros d Hne Hq. rewrite lookup_delete_ne by done. by eapply Hfile.
  - rewrite unzip_datasets_unfold. cbv zeta. rewrite E. simpl. eauto.
Qed.

(** X7. What no member of the archive is written to keeps what it
    holds: a path other than the archive name that is not the target of
    any member has the same node after the extractor as before it,
    however the extractor ends.  (With no readable archive at the
    archive name there are no members, and every other path is kept.) *)
Theorem unzip_untargeted_unchanged dataset w q n :
  q ≠ [archive_name dataset] →
  files w !! q = Some n →
  (∀ bytes a,
     files w !! [archive_name dataset] = Some (File bytes) →
     zip_open bytes = Some (Ok a) →
     Forall (λ m, member_target m ≠ Some q) (entries a)) →
  files (unzip_datasets dataset w).2 !! q = Some n.
Proof.
  intros Hne Hq Hfree.
  destruct (files w !! [archive_name dataset]) as [x|] eqn:E.
  - rewrite (unzip_datasets_found dataset x w E).
    set (w1 := {| files := files w; log := _ |}).
    assert (files (shutil.unpack_archive (archive_name dataset) w1).2 !! q
            = Some n) as Hkept.
    { destruct (refusal x) as [e|] eqn:Hx.
      - by rewrite (unpack_archive_refused dataset x e w1 E Hx).
      - destruct x as [bytes|]; [|done]. simpl in Hx.
        destruct (zip_open bytes) as [[a|e]|] eqn:Hzip; [|done..].
        rewrite (unpack_archive_members dataset bytes a w1 E Hzip).
        apply extract_all_other; [by eapply Hfree|done]. }
    destruct (shutil.unpack_archive (archive_name dataset) w1)
      as [[[]|e] w2]; simpl in *; [|done].
    by rewrite lookup_delete_ne.
  - rewrite unzip_datasets_unfold. cbv zeta. by rewrite E.
Qed.

(** X8. An archive all of whose members are skipped (their names start
    with ['/'] or contain ['..']), an empty archive among them, is
    removed and nothing is extracted: the working directory afterwards
    is the one before without the archive. *)
Theorem unzip_only_skipped_members dataset bytes a w :
  files w !! [archive_name dataset] = Some (File bytes) →
  zip_open bytes = Some (Ok a) →
  Forall (λ m, shutil.skipped m.1 = true) (entries a) →
  unzip_datasets dataset w =
  (Ok tt, {| files := delete [archive_name dataset] (files w);
             log := log w ++ [EvExists (archive_name dataset);
                              EvUnpack (archive_name dataset);
                              EvRemove (archive_name dataset)] |}).
Proof.
  intros Hfile Hzip Hskip.
  rewrite (unzip_datasets_found dataset _ w Hfile).
  rewrite (unpack_archive_members dataset bytes a
             {| files := files w;
                log := log w ++ [EvExists (archive_name dataset)] |}
             Hfile Hzip).
  rewrite (extract_all_skipped _ a (entries a) 0 _ Hskip). simpl.
  by rewrite <- !app_assoc.
Qed.

End extractor_more.

Section extractor_more_runs.
Import shutil_facts.

Lemma unzip_returns_archive_gone_witness :
  @unzip_datasets demo "a/ds1" (archive_world "PK-one")
  = (Ok tt, (@unzip_datasets demo "a/ds1" (archive_world "PK-one")).2) ∧
  files (@unzip_datasets demo "a/ds1" (archive_world "PK-one")).2
    !! [archive_name "a/ds1"] = None.
Proof.
  assert (@unzip_datasets demo "a/ds1" (archive_world "PK-one")
    = (Ok tt, (@unzip_datasets demo "a/ds1" (archive_world "PK-one")).2))
    as Hrun by (vm_compute; reflexivity).
  split; [exact Hrun|].
  exact (unzip_returns_archive_gone (H := demo) "a/ds1" _ _ Hrun).
Defined.

Lemma unzip_raises_only_from_unpack_witness :
  @unzip_datasets demo "a/ds1" (archive_world "garbage")
  = (Raise ReadError,
     (@unzip_datasets demo "a/ds1" (archive_world "garbage")).2) ∧
  is_Some (files (archive_world "garbage") !! [archive_name "a/ds1"]).
Proof.
  assert (@unzip_datasets demo "a/ds1" (archive_world "garbage")
    = (Raise ReadError,
       (@unzip_datasets demo "a/ds1" (archive_world "garbage")).2))
    as Hrun by (vm_compute; reflexivity).
  split; [exact Hrun|].
  exact (proj1 (unzip_raises_only_from_unpack (H := demo) "a/ds1" _ _ _ Hrun)).
Defined.

Lemma unzip_twice_witness :
  @unzip_datasets demo "a/ds1" (archive_world "PK-one")
  = (Ok tt, (@unzip_datasets demo "a/ds1" (archive_world "PK-one")).2) ∧
  (@unzip_datasets demo "a/ds1"
     (@unzip_datasets demo "a/ds1" (archive_world "PK-one")).2).1 = Ok tt.
Proof.
  assert (@unzip_datasets demo "a/ds1" (archive_world "PK-one")
    = (Ok tt, (@unzip_datasets demo "a/ds1" (archive_world "PK-one")).2))
    as Hrun by (vm_compute; reflexivity).
  split; [exact Hrun|].
  by rewrite (unzip_twice (H := demo) "a/ds1" _ _ Hrun).
Defined.

Lemma unzip_keeps_kinds_witness :
  files busy_world !! ["sub"] = Some Dir ∧
  files (@unzip_datasets demo "a/ds1" busy_world).2 !! ["sub"] = Some Dir.
Proof.
  split; [reflexivity|].
  apply (proj1 (unzip_keeps_kinds (H := demo) "a/ds1" busy_world ["sub"])).
  reflexivity.
Defined.

Lemma unzip_untargeted_unchanged_witness :
  files busy_world !! ["keep.txt"] = Some (File "k") ∧
  files (@unzip_datasets demo "a/ds1" busy_world).2 !! ["keep.txt"]
    = Some (File "k").
Proof.
  split; [reflexivity|].
  apply (unzip_untargeted_unchanged (H := demo) "a/ds1" busy_world).
  - vm_compute. discriminate.
  - reflexivity.
  - intros bytes a Hfile Hzip.
    assert (bytes = "PK-tree") as -> by (vm_compute in Hfile; congruence).
    assert (a = demo_archive tree_members) as ->
      by (change (Some (Ok (demo_archive tree_members)) = Some (Ok a))
            in Hzip; congruence).
    repeat constructor; vm_compute; discriminate.
Defined.

Lemma unzip_only_skipped_members_witness :
  Forall (λ m : string * read_outcome, shutil.skipped m.1 = true)
    skip_members ∧
  @unzip_datasets demo_skip "a/ds1" (archive_world "PK-skip")
  = (Ok tt, {| files := ∅;
               log := [EvExists "ds1.zip"; EvUnpack "ds1.zip";
                       EvRemove "ds1.zip"] |}).
Proof.
  assert (Forall (λ m : string * read_outcome, shutil.skipped m.1 = true)
            skip_members) as Hskip by (repeat constructor).
  split; [exact Hskip|].
  rewrite (unzip_only_skipped_members (H := demo_skip) "a/ds1" "PK-skip"
             (demo_archive skip_members) (archive_world "PK-skip"));
    [|reflexivity..|exact Hskip].
  vm_compute. reflexivity.
Defined.

End extractor_more_runs.

Section script_more.
Import unpack_facts fetcher_facts makedirs_facts more_facts.

(** X9. When the download tool cannot be started for a dataset,
    [subprocess.run] raises [FileNotFoundError] and the script ends
    there: the extractor is not called for that dataset, the datasets
    after it are not downloaded, and the organizer does not run. *)
Theorem download_launch_failure `{Platform} pre d post w0 w :
  download_datasets_on pre w0 = (Ok tt, w) →
  run_program (download_command d) (files w) = None →
  main_on (pre ++ d :: post) w0 =
  (Raise FileNotFoundError,
   {| files := files w; log := log w ++ [EvRun (download_command d)] |}).
Proof.
  intros Hpre Hnone. unfold main_on, download_datasets_on.
  unfold bind at 1.
  rewrite (for_each_app_run _ pre (d :: post) w0 w Hpre).
  simpl for_each. unfold bind. by rewrite run_unfold, Hnone.
Qed.

Lemma download_launch_failure_witness :
  @main_on no_tool ["a/ds1"; "b/ds2"] empty_world =
  (Raise FileNotFoundError,
   {| files := ∅; log := [EvRun (download_command "a/ds1")] |}).
Proof.
  apply (download_launch_failure (H := no_tool) [] "a/ds1" ["b/ds2"]
           empty_world empty_world); reflexivity.
Defined.

(** X10. When, after the download for a dataset, what is at its archive
    name is refused before anything is extracted (a directory or a file
    that [is_zipfile] does not accept, with [ReadError], or a file on
    which [ZipFile] raises, with that exception), the script ends there
    with that exception: nothing is extracted or removed, the datasets
    after it are not downloaded, and the organizer does not run. *)
Theorem unreadable_archive_aborts `{Platform} pre d post w0 w fs' rc n e :
  download_datasets_on pre w0 = (Ok tt, w) →
  run_program (download_command d) (files w) = Some (fs', rc) →
  fs' !! [archive_name d] = Some n →
  refusal n = Some e →
  main_on (pre ++ d :: post) w0 =
  (Raise e,
   {| files := fs';
      log := log w ++ [EvRun (download_command d);
                       EvExists (archive_name d);
                       EvUnpack (archive_name d)] |}).
Proof.
  intros Hpre Hrun Hn Hbad. unfold main_on, download_datasets_on.
  unfold bind at 1.
  rewrite (for_each_app_run _ pre (d :: post) w0 w Hpre).
  simpl for_each. unfold bind at 1. unfold bind at 1.
  rewrite run_unfold, Hrun.
  rewrite (unzip_datasets_found d n
             {| files := fs'; log := log w ++ [EvRun (download_command d)] |}
             Hn).
  cbn [files log].
  rewrite (unpack_archive_refused d n e
             {| files := fs';
                log := (log w ++ [EvRun (download_command d)])
                       ++ [EvExists (archive_name d)] |} Hn Hbad).
  cbn [files log]. by rewrite <- !app_assoc.
Qed.

Lemma unreadable_archive_aborts_witness :
  @refusal demo (File "PK-baddir") = Some BadZipFile ∧
  @main_on demo ["b/ds1"; "a/ds1"] (archive_world "PK-baddir") =
  (Raise BadZipFile,
   {| files := files (archive_world "PK-baddir");
      log := [EvRun (download_command "b/ds1");
              EvExists "ds1.zip"; EvUnpack "ds1.zip"] |}).
Proof.
  split; [reflexivity|].
  apply (unreadable_archive_aborts (H := demo) [] "b/ds1" ["a/ds1"]
           (archive_world "PK-baddir") (archive_world "PK-baddir")
           _ 1%Z (File "PK-baddir") BadZipFile); reflexivity.
Defined.

(** X11. The organizer returns without an exception exactly when none
    of the four category names is taken by a regular file. *)
Theorem organize_ok_iff w :
  (organize_datasets w).1 = Ok tt ↔
  Forall (not_file_at (files w)) categories.
Proof.
  rewrite organize_datasets_make_all.
  apply make_all_ok_iff, categories_plain.
Qed.

(** X12. The organizer stops at the first category name that is a
    regular file: it raises [FileExistsError], the categories before it
    in the list are directories by then, the ones after it have not been
    asked for, and nothing else in the working directory has changed;
    what was created is not undone. *)
Theorem organize_blocked pre c post d w :
  categories = (pre ++ c :: post)%list →
  Forall (not_file_at (files w)) pre →
  files w !! [c] = Some (File d) →
  (organize_datasets w).1 = Raise FileExistsError ∧
  log (organize_datasets w).2
    = (log w ++ (EvMakedirs <$> pre ++ [c]))%list ∧
  Forall (λ p, files (organize_datasets w).2 !! [p] = Some Dir) pre ∧
  ∀ q, q ∉ (λ p, [p]) <$> pre →
       files (organize_datasets w).2 !! q = files w !! q.
Proof.
  intros Hcat Hpre Hc. rewrite organize_datasets_make_all.
  pose proof categories_plain as Hplain. rewrite Hcat in *.
  destruct (make_all_blocked pre c post d Hplain w Hpre Hc)
    as (w' & -> & Hlog & Hdirs & Hadd).
  simpl. split; [done|]. split; [done|]. split; [done|].
  intros q Hq. destruct (Hadd q) as [?|(? & _)]; done.
Qed.

Lemma organize_blocked_witness :
  (organize_datasets half_blocked_world).1 = Raise FileExistsError ∧
  log (organize_datasets half_blocked_world).2
  = [EvMakedirs "fresh"; EvMakedirs "light_damage";
     EvMakedirs "moderate_damage"] ∧
  files (organize_datasets half_blocked_world).2 !! ["severe_damage"] = None.
Proof.
  destruct (organize_blocked ["fresh"; "light_damage"] "moderate_damage"
              ["severe_damage"] "x" half_blocked_world)
    as (Hraise & Hlog & _ & Hframe).
  - reflexivity.
  - repeat constructor; intros d; vm_compute; discriminate.
  - reflexivity.
  - split; [exact Hraise|]. split; [exact Hlog|].
    rewrite Hframe; [reflexivity|].
    rewrite list_elem_of_In. vm_compute. intros [E|[E|[]]]; discriminate.
Defined.

(** X13. The script returns without an exception exactly when the
    fetcher does and leaves none of the four category names taken by a
    regular file; the four categories are directories then.  A file that
    an archive extracts under a category name makes the script fail. *)
Theorem main_ok_iff `{Platform} ds w :
  ((main_on ds w).1 = Ok tt ↔
   ∃ w1, download_datasets_on ds w = (Ok tt, w1) ∧
         Forall (not_file_at (files w1)) categories) ∧
  ((main_on ds w).1 = Ok tt →
   Forall (λ c, files (main_on ds w).2 !! [c] = Some Dir) categories).
Proof.
  unfold main_on, bind.
  destruct (download_datasets_on ds w) as [[[]|e] w1].
  - rewrite organize_datasets_make_all. split.
    + rewrite (make_all_ok_iff categories categories_plain w1). split.
      * intros Hall. eauto.
      * by intros (w1' & [= <-] & Hall).
    + destruct (make_all categories w1) as [r w2] eqn:Horg. simpl.
      intros ->.
      by destruct (make_all_ok categories categories_plain _ _ Horg).
  - split; [|done]. split; [done|]. by intros (w1' & ? & _).
Qed.

Lemma main_ok_iff_witness :
  (@main_on demo ["a/ds1"] empty_world).1 = Ok tt ∧
  Forall (λ c, files (@main_on demo ["a/ds1"] empty_world).2 !! [c]
               = Some Dir) categories.
Proof.
  split; [vm_compute; reflexivity|].
  apply (proj2 (main_ok_iff (H := demo) ["a/ds1"] empty_world)).
  vm_compute. reflexivity.
Defined.

End script_more.
